(** * Vehicle dashboard: search coordination, list state, pagination

    A shallow embedding of [src/components/vehicle-dashboard.tsx],
    [src/hooks/use-debounce.ts], the submit handler of the edit form and the
    click guard of [src/components/action-menu.tsx].

    JavaScript numbers that only ever hold page numbers, indices and
    millisecond clocks are integers of [Z]; a JavaScript string is the
    [string] of its UTF-8 bytes; [undefined]-able values are [option]. *)

From Stdlib Require Import ZArith Lia.
From stdpp Require Import base option list strings.

(** ** JavaScript primitives used by the components *)

Module JS.

(** [s || d] on an optional string: [undefined] and the empty string are
    falsy. *)
Definition or_default (s : option string) (d : string) : string :=
  match s with
  | Some x => if String.eqb x "" then d else x
  | None => d
  end.

(** Truthiness of an optional string. *)
Definition truthy (s : option string) : bool :=
  match s with
  | Some x => negb (String.eqb x "")
  | None => false
  end.

(** [s || undefined] on an optional string. *)
Definition or_undefined (s : option string) : option string :=
  if truthy s then s else None.

(** The UTF-8 bytes of a code point. *)
Definition utf8 (cp : N) : list Ascii.ascii :=
  Ascii.ascii_of_N <$>
    (if (cp <? 128)%N then [cp]
     else if (cp <? 2048)%N then [192 + cp / 64; 128 + cp mod 64]
     else if (cp <? 65536)%N then
       [224 + cp / 4096; 128 + (cp / 64) mod 64; 128 + cp mod 64]
     else
       [240 + cp / 262144; 128 + (cp / 4096) mod 64;
        128 + (cp / 64) mod 64; 128 + cp mod 64])%N.

(** The code points [String.prototype.trim] strips: the WhiteSpace and
    LineTerminator productions of ECMAScript. *)
Definition whiteSpaceCodePoints : list N :=
  [ 9; 10; 11; 12; 13; 32;      (* TAB LF VT FF CR SP *)
    160;                         (* U+00A0 no-break space *)
    5760;                        (* U+1680 *)
    8192; 8193; 8194; 8195; 8196; 8197; 8198; 8199; 8200; 8201; 8202;
                                 (* U+2000 .. U+200A *)
    8232; 8233;                  (* U+2028, U+2029 *)
    8239;                        (* U+202F *)
    8287;                        (* U+205F *)
    12288;                       (* U+3000 *)
    65279 ]%N.                   (* U+FEFF *)

Definition whiteSpace : list (list Ascii.ascii) := utf8 <$> whiteSpaceCodePoints.

(** [strip_prefix p l] is what follows [p] in [l], if [l] starts with
    [p]. *)
Fixpoint strip_prefix (p l : list Ascii.ascii) : option (list Ascii.ascii) :=
  match p, l with
  | [], _ => Some l
  | a :: p', b :: l' => if Ascii.eqb a b then strip_prefix p' l' else None
  | _ :: _, [] => None
  end.

(** What follows the first of the sequences [ps] that [l] starts with. *)
Fixpoint strip_first (ps : list (list Ascii.ascii)) (l : list Ascii.ascii)
  : option (list Ascii.ascii) :=
  match ps with
  | [] => None
  | p :: ps' =>
      match strip_prefix p l with
      | Some r => Some r
      | None => strip_first ps' l
      end
  end.

(** Stripping leading sequences of [ps], at most [fuel] of them. *)
Fixpoint strip_all (ps : list (list Ascii.ascii)) (fuel : nat)
    (l : list Ascii.ascii) : list Ascii.ascii :=
  match fuel with
  | O => l
  | S fuel' =>
      match strip_first ps l with
      | Some r => strip_all ps fuel' r
      | None => l
      end
  end.

(** [trimStart], [trimEnd] and [trim] on the bytes of a string. The
    sequences are whole code points, so in well-formed UTF-8 one that ends
    the bytes is the last code point. *)
Definition trim_start (l : list Ascii.ascii) : list Ascii.ascii :=
  strip_all whiteSpace (length l) l.

Definition trim_end (l : list Ascii.ascii) : list Ascii.ascii :=
  reverse (strip_all (reverse <$> whiteSpace) (length l) (reverse l)).

Definition trim (s : string) : string :=
  String.string_of_list_ascii (trim_end (trim_start (String.list_ascii_of_string s))).

(** [Math.ceil (a / b)] for integers [a] and a positive integer [b]. *)
Definition ceil_div (a b : Z) : Z := (- ((- a) / b))%Z.

(** [Array.prototype.slice (start, end)] with integer arguments: negative
    indices count from the end, and both are clamped to the array. *)
Definition slice {A} (l : list A) (start end_ : Z) : list A :=
  let len := Z.of_nat (length l) in
  let k := if (start <? 0)%Z then Z.max (len + start) 0 else Z.min start len in
  let final := if (end_ <? 0)%Z then Z.max (len + end_) 0 else Z.min end_ len in
  take (Z.to_nat (Z.max (final - k) 0)) (drop (Z.to_nat k) l).

End JS.

(** ** Data model *)

(** The interface [Vehicle] of [types/vehicle.types]: the nine fields of
    [VehicleFormData], an [id] and an optional [status]. The interface
    declares the nine as strings; the six that the table and the edit form
    guard with [||] come from the server untyped and are optional here, the
    three the schema requires are strings. *)
Record Vehicle : Type := mkVehicle {
  id : Z;
  dealer_code : string;
  dealer_name : option string;
  dealer_address : option string;
  dealer_city : option string;
  dealer_state : option string;
  model_name : string;
  model_id : option string;
  battery_power : option string;
  serial_number : string;
  status : option string
}.

(** The object spread [{ ...v, status: st }]. *)
Definition with_status (v : Vehicle) (st : option string) : Vehicle :=
  {| id := id v;
     dealer_code := dealer_code v;
     dealer_name := dealer_name v;
     dealer_address := dealer_address v;
     dealer_city := dealer_city v;
     dealer_state := dealer_state v;
     model_name := model_name v;
     model_id := model_id v;
     battery_power := battery_power v;
     serial_number := serial_number v;
     status := st |}.

(** [v.status === 'sold'] *)
Definition is_sold (v : Vehicle) : bool :=
  match status v with
  | Some st => String.eqb st "sold"
  | None => false
  end.

(** ** Pagination *)

Module Pagination.
Local Open Scope Z_scope.

Definition ITEMS_PER_PAGE : Z := 5.

Definition totalPages (vehicles : list Vehicle) : Z :=
  JS.ceil_div (Z.of_nat (length vehicles)) ITEMS_PER_PAGE.

Definition startIndex (currentPage : Z) : Z :=
  (currentPage - 1) * ITEMS_PER_PAGE.

Definition endIndex (currentPage : Z) : Z :=
  startIndex currentPage + ITEMS_PER_PAGE.

Definition currentVehicles (vehicles : list Vehicle) (currentPage : Z)
  : list Vehicle :=
  JS.slice vehicles (startIndex currentPage) (endIndex currentPage).

(** The updater of the Previous button,
    [(prev) => Math.max(1, prev - 1)]. *)
Definition previousPage (prev : Z) : Z := Z.max 1 (prev - 1).

(** The updater of the Next button,
    [(prev) => Math.min(totalPages, prev + 1)]. *)
Definition nextPage (vehicles : list Vehicle) (prev : Z) : Z :=
  Z.min (totalPages vehicles) (prev + 1).

(** [disabled={currentPage === 1}] and
    [disabled={currentPage === totalPages}]. *)
Definition previousDisabled (currentPage : Z) : bool := currentPage =? 1.
Definition nextDisabled (vehicles : list Vehicle) (currentPage : Z) : bool :=
  currentPage =? totalPages vehicles.

(** A click on a button: a disabled button fires no handler. *)
Definition clickPrevious (currentPage : Z) : Z :=
  if previousDisabled currentPage then currentPage
  else previousPage currentPage.

Definition clickNext (vehicles : list Vehicle) (currentPage : Z) : Z :=
  if nextDisabled vehicles currentPage then currentPage
  else nextPage vehicles currentPage.

(** While a vehicle is being edited the component returns the edit form
    and nothing else ([if (editingVehicle !== null) return ...]). *)
Definition showsEditForm (editingVehicle : option Vehicle) : bool :=
  match editingVehicle with
  | Some _ => true
  | None => false
  end.

(** Whether the table section and, inside it, the pagination bar are
    rendered: past the early return for the edit form, the guards are
    [!isLoading && vehicles.length > 0] and [totalPages > 1]. *)
Definition showsTable (editingVehicle : option Vehicle) (isLoading : bool)
    (vehicles : list Vehicle) : bool :=
  negb (showsEditForm editingVehicle)
  && (negb isLoading && (0 <? Z.of_nat (length vehicles))).

Definition showsPagination (editingVehicle : option Vehicle)
    (isLoading : bool) (vehicles : list Vehicle) : bool :=
  showsTable editingVehicle isLoading vehicles && (1 <? totalPages vehicles).

(** The page numbers [1 .. totalPages]. *)
Definition pages (vehicles : list Vehicle) : list Z :=
  seqZ 1 (totalPages vehicles).

End Pagination.

(** ** The debounce hook *)

Module Debounce.
Local Open Scope Z_scope.

Section Tracker.
Context {T : Type} `{EqDecision T}.

(** One instance of [useDebounce]: the [value] of the last render, the
    state [debouncedValue], and the timeout of the live effect, if it has
    not fired yet, with its due time and the value its callback
    captured. *)
Record tracker : Type := mkTracker {
  value : T;
  debouncedValue : T;
  timer : option (Z * T)
}.

(** First render at time [now]: [useState(value)], then the effect sets
    the first timeout. *)
Definition mount (v : T) (delay now : Z) : tracker :=
  {| value := v; debouncedValue := v; timer := Some (now + delay, v) |}.

(** A later render with [v] at time [now]. The effect depends on
    [[value, delay]]: when [v] is the value of the previous render
    nothing runs; otherwise the clean-up clears the old timeout and the
    effect sets a new one. *)
Definition rerender (tr : tracker) (v : T) (delay now : Z) : tracker :=
  if decide (v = value tr) then tr
  else {| value := v;
          debouncedValue := debouncedValue tr;
          timer := Some (now + delay, v) |}.

(** The timeout callback [() => setDebouncedValue(value)]. *)
Definition fire (tr : tracker) (v : T) : tracker :=
  {| value := value tr; debouncedValue := v; timer := None |}.

(** Clean-up on unmount. *)
Definition unmount (tr : tracker) : tracker :=
  {| value := value tr; debouncedValue := debouncedValue tr; timer := None |}.

(** Letting the clock reach [now]: a timeout that is due runs. The
    second component lists the calls of [setDebouncedValue], each with
    the time it ran at. *)
Definition advance (tr : tracker) (now : Z) : tracker * list (Z * T) :=
  match timer tr with
  | Some (due, v) =>
      if due <=? now then (fire tr v, [(due, v)]) else (tr, [])
  | None => (tr, [])
  end.

(** A timeline of input changes [(t, v)]: at time [t] the component
    renders with [v]. *)
Fixpoint play (tr : tracker) (delay : Z) (changes : list (Z * T))
  : tracker * list (Z * T) :=
  match changes with
  | [] => (tr, [])
  | (t, v) :: rest =>
      let '(tr1, out1) := advance tr t in
      let '(tr2, out2) := play (rerender tr1 v delay t) delay rest in
      (tr2, out1 ++ out2)
  end.

(** The timeline followed by a wait until [horizon]. *)
Definition play_until (tr : tracker) (delay : Z) (changes : list (Z * T))
    (horizon : Z) : tracker * list (Z * T) :=
  let '(tr1, out1) := play tr delay changes in
  let '(tr2, out2) := advance tr1 horizon in
  (tr2, out1 ++ out2).

(** What a consumer of the hook sees: the calls of [setDebouncedValue]
    that give the state a value other than the one it holds. *)
Fixpoint observed (current : T) (calls : list (Z * T)) : list (Z * T) :=
  match calls with
  | [] => []
  | (t, v) :: rest =>
      if decide (v = current) then observed current rest
      else (t, v) :: observed v rest
  end.

(** No timeout of [tr] is due at [now]. *)
Definition settled_at (tr : tracker) (now : Z) : Prop :=
  match timer tr with
  | Some (due, _) => now < due
  | None => True
  end.

(** A burst: every change comes strictly less than [delay] after the
    previous one (the first one at [t0]) and carries a value other than
    the previous one ([v0] for the first). *)
Fixpoint burst (delay t0 : Z) (v0 : T) (changes : list (Z * T)) : Prop :=
  match changes with
  | [] => True
  | (t, v) :: rest =>
      t0 <= t /\ t - t0 < delay /\ v <> v0 /\ burst delay t v rest
  end.

End Tracker.

Arguments tracker T : clear implicits.
End Debounce.

(** ** The API client, as the dashboard sees it *)

(** The interface [ApiResponse] of [types/vehicle.types],
    [{ success?, message?, error? }]. The handlers only test [success] for
    truth, so an absent [success] is [false] here. *)
Record ApiResponse : Type := mkApiResponse {
  success : bool;
  message : option string;
  error : option string
}.

(** The interface [VehicleListResponse] of [types/vehicle.types],
    [{ vehicles?, vehicle?, error? }], without [vehicle], which only
    [getVehicleById] fills and no component reads. *)
Record VehicleListResponse : Type := mkVehicleListResponse {
  list_vehicles : option (list Vehicle);
  list_error : option string
}.

(** The interface [VehicleFormData] of [types/vehicle.types], which is
    also the type the schema infers: nine strings. *)
Record VehicleFormData : Type := mkVehicleFormData {
  form_dealer_code : string;
  form_dealer_name : string;
  form_dealer_address : string;
  form_dealer_city : string;
  form_dealer_state : string;
  form_model_name : string;
  form_model_id : string;
  form_battery_power : string;
  form_serial_number : string
}.

(** The calls of [services/vehicle.service] made by the components, indexed
    by the type of the value their promise resolves to. *)
Inductive Request : Type -> Type :=
| getVehicles (serialNumber dealerCode : option string)
    : Request VehicleListResponse
| deleteVehicle (vehicleId : Z) : Request ApiResponse
| markAsSold (vehicleId : Z) : Request ApiResponse
| updateVehicle (vehicleId : Z) (formData : VehicleFormData)
    : Request ApiResponse.

(** What a [catch] clause receives: an [Error] with its message, or any
    other thrown value. *)
Inductive Thrown : Type :=
| ThrownError (msg : string)
| ThrownOther.

(** [error instanceof Error ? error.message : fallback] *)
Definition thrown_message (e : Thrown) (fallback : string) : string :=
  match e with
  | ThrownError msg => msg
  | ThrownOther => fallback
  end.

(** How an awaited promise settles. *)
Inductive Settled (R : Type) : Type :=
| Fulfilled (r : R)
| Rejected (e : Thrown).
Arguments Fulfilled {R} r.
Arguments Rejected {R} e.

(** [toast.success] and [toast.error]. *)
Inductive Toast : Type :=
| toast_success (msg : string)
| toast_error (msg : string).

(** ** Component state *)

Inductive VehicleSearchMode : Type := serial_number_mode | dealer_code_mode.

#[global] Instance VehicleSearchMode_eq_dec : EqDecision VehicleSearchMode.
Proof. solve_decision. Defined.

Record DeleteTarget : Type := mkDeleteTarget {
  target_id : Z;
  target_serialNumber : string
}.

(** The [useState] cells of [VehicleDashboard], its two [useDebounce]
    instances, and [isSubmitting] of the edit form it renders. *)
Record Dashboard : Type := mkDashboard {
  vehicles : list Vehicle;
  isLoading : bool;
  currentPage : Z;
  searchSerialNumber : string;
  searchDealerCode : string;
  searchMode : VehicleSearchMode;
  debouncedSerialNumber : Debounce.tracker string;
  debouncedDealerCode : Debounce.tracker string;
  editingVehicle : option Vehicle;
  deletingVehicle : option DeleteTarget;
  isSubmitting : bool
}.

Definition DEBOUNCE_DELAY_MS : Z := 500.

Module Setters.

Definition vehicles_ (f : list Vehicle -> list Vehicle) (s : Dashboard) :=
  mkDashboard (f (vehicles s)) (isLoading s) (currentPage s)
    (searchSerialNumber s) (searchDealerCode s) (searchMode s)
    (debouncedSerialNumber s) (debouncedDealerCode s)
    (editingVehicle s) (deletingVehicle s) (isSubmitting s).

Definition isLoading_ (b : bool) (s : Dashboard) :=
  mkDashboard (vehicles s) b (currentPage s)
    (searchSerialNumber s) (searchDealerCode s) (searchMode s)
    (debouncedSerialNumber s) (debouncedDealerCode s)
    (editingVehicle s) (deletingVehicle s) (isSubmitting s).

Definition currentPage_ (f : Z -> Z) (s : Dashboard) :=
  mkDashboard (vehicles s) (isLoading s) (f (currentPage s))
    (searchSerialNumber s) (searchDealerCode s) (searchMode s)
    (debouncedSerialNumber s) (debouncedDealerCode s)
    (editingVehicle s) (deletingVehicle s) (isSubmitting s).

Definition searchSerialNumber_ (q : string) (s : Dashboard) :=
  mkDashboard (vehicles s) (isLoading s) (currentPage s)
    q (searchDealerCode s) (searchMode s)
    (debouncedSerialNumber s) (debouncedDealerCode s)
    (editingVehicle s) (deletingVehicle s) (isSubmitting s).

Definition searchDealerCode_ (q : string) (s : Dashboard) :=
  mkDashboard (vehicles s) (isLoading s) (currentPage s)
    (searchSerialNumber s) q (searchMode s)
    (debouncedSerialNumber s) (debouncedDealerCode s)
    (editingVehicle s) (deletingVehicle s) (isSubmitting s).

Definition searchMode_ (m : VehicleSearchMode) (s : Dashboard) :=
  mkDashboard (vehicles s) (isLoading s) (currentPage s)
    (searchSerialNumber s) (searchDealerCode s) m
    (debouncedSerialNumber s) (debouncedDealerCode s)
    (editingVehicle s) (deletingVehicle s) (isSubmitting s).

Definition debounced_ (ds dd : Debounce.tracker string) (s : Dashboard) :=
  mkDashboard (vehicles s) (isLoading s) (currentPage s)
    (searchSerialNumber s) (searchDealerCode s) (searchMode s)
    ds dd
    (editingVehicle s) (deletingVehicle s) (isSubmitting s).

Definition editingVehicle_ (v : option Vehicle) (s : Dashboard) :=
  mkDashboard (vehicles s) (isLoading s) (currentPage s)
    (searchSerialNumber s) (searchDealerCode s) (searchMode s)
    (debouncedSerialNumber s) (debouncedDealerCode s)
    v (deletingVehicle s) (isSubmitting s).

Definition deletingVehicle_ (t : option DeleteTarget) (s : Dashboard) :=
  mkDashboard (vehicles s) (isLoading s) (currentPage s)
    (searchSerialNumber s) (searchDealerCode s) (searchMode s)
    (debouncedSerialNumber s) (debouncedDealerCode s)
    (editingVehicle s) t (isSubmitting s).

Definition isSubmitting_ (b : bool) (s : Dashboard) :=
  mkDashboard (vehicles s) (isLoading s) (currentPage s)
    (searchSerialNumber s) (searchDealerCode s) (searchMode s)
    (debouncedSerialNumber s) (debouncedDealerCode s)
    (editingVehicle s) (deletingVehicle s) b.

End Setters.

(** ** Handlers as programs *)

(** An event handler: it reads the state, applies state setters, raises
    toasts and awaits API calls; what follows an [await] is a function of how
    the promise settles, so [try]/[catch] is a case distinction on it. *)
Inductive Prog (A : Type) : Type :=
| Ret (a : A)
| GetState (k : Dashboard -> Prog A)
| SetState (f : Dashboard -> Dashboard) (k : Prog A)
| Notify (t : Toast) (k : Prog A)
| Await {R : Type} (r : Request R) (k : Settled R -> Prog A).
Arguments Ret {A} a.
Arguments GetState {A} k.
Arguments SetState {A} f k.
Arguments Notify {A} t k.
Arguments Await {A R} r k.

Fixpoint bind {A B : Type} (p : Prog A) (f : A -> Prog B) : Prog B :=
  match p with
  | Ret a => f a
  | GetState k => GetState (fun s => bind (k s) f)
  | SetState g k => SetState g (bind k f)
  | Notify t k => Notify t (bind k f)
  | Await r k => Await r (fun o => bind (k o) f)
  end.

#[global] Instance Prog_ret : MRet Prog := fun A a => Ret a.
#[global] Instance Prog_bind : MBind Prog := fun A B f p => bind p f.

Definition setState (f : Dashboard -> Dashboard) : Prog unit :=
  SetState f (Ret tt).
Definition toast (t : Toast) : Prog unit := Notify t (Ret tt).
Definition await {R} (r : Request R) : Prog (Settled R) := Await r Ret.

(** An API server: how the [n]-th call of a session settles. *)
Definition Api : Type := nat -> forall R, Request R -> Settled R.

(** What a handler does to the outside: API calls, each with the state the
    component was in when the request left, and toasts. *)
Inductive Event : Type :=
| Called {R : Type} (r : Request R) (at_state : Dashboard)
| Toasted (t : Toast).

(** Running a handler to completion against a server, in the schedule in
    which nothing else happens while the handler is suspended at an
    [await]: the result, the final state, the number of API calls made so
    far, and the events in the order they happened. *)
Fixpoint run {A : Type} (api : Api) (p : Prog A) (s : Dashboard) (n : nat)
  : A * Dashboard * nat * list Event :=
  match p with
  | Ret a => (a, s, n, [])
  | GetState k => run api (k s) s n
  | SetState f k => run api k (f s) n
  | Notify t k =>
      let '(a, s', n', evs) := run api k s n in
      (a, s', n', Toasted t :: evs)
  | Await r k =>
      let '(a, s', n', evs) := run api (k (api n _ r)) s (S n) in
      (a, s', n', Called r s :: evs)
  end.

(** Running a handler while the rest of the application is at work: the
    handler is suspended at every [await], and [amid n] is what the other
    handlers do to the state between the [n]-th request and its response.
    [run] is [runAmid] with nothing happening in between. *)
Fixpoint runAmid {A : Type} (api : Api) (amid : nat -> Dashboard -> Dashboard)
    (p : Prog A) (s : Dashboard) (n : nat)
  : A * Dashboard * nat * list Event :=
  match p with
  | Ret a => (a, s, n, [])
  | GetState k => runAmid api amid (k s) s n
  | SetState f k => runAmid api amid k (f s) n
  | Notify t k =>
      let '(a, s', n', evs) := runAmid api amid k s n in
      (a, s', n', Toasted t :: evs)
  | Await r k =>
      let '(a, s', n', evs) :=
        runAmid api amid (k (api n _ r)) (amid n s) (S n) in
      (a, s', n', Called r s :: evs)
  end.

(** The final state and the events of a run. *)
Definition finalState {A} (result : A * Dashboard * nat * list Event)
  : Dashboard := result.1.1.2.
Definition eventsOf {A} (result : A * Dashboard * nat * list Event)
  : list Event := result.2.

(** ** The handlers of [VehicleDashboard] *)

Definition sold : option string := Some "sold".

(** [fetchVehicles(serialNumber?, dealerCode?)] *)
Definition fetchVehicles (serialNumber dealerCode : option string)
  : Prog unit :=
  setState (Setters.isLoading_ true);;
  let serialNum := JS.or_undefined (JS.trim <$> serialNumber) in
  let dealer := JS.or_undefined (JS.trim <$> dealerCode) in
  outcome ← await (getVehicles serialNum dealer);
  match outcome with
  | Fulfilled response =>
      match JS.or_undefined (list_error response) with
      | Some e =>
          toast (toast_error e);;
          setState (Setters.vehicles_ (fun _ => []))
      | None =>
          setState
            (Setters.vehicles_ (fun _ => default [] (list_vehicles response)));;
          setState (Setters.currentPage_ (fun _ => 1%Z))
      end
  | Rejected e =>
      toast (toast_error (thrown_message e "Failed to fetch vehicles"));;
      setState (Setters.vehicles_ (fun _ => []))
  end;;
  setState (Setters.isLoading_ false).

(** The filters the auto-search effect passes to [fetchVehicles]. *)
Definition autoSearchFilters (s : Dashboard)
  : option string * option string :=
  match searchMode s with
  | serial_number_mode =>
      (Some (Debounce.debouncedValue (debouncedSerialNumber s)), None)
  | dealer_code_mode =>
      (None, Some (Debounce.debouncedValue (debouncedDealerCode s)))
  end.

(** The body of the auto-search effect. *)
Definition autoSearch : Prog unit :=
  GetState (fun s =>
    let '(serialFilter, dealerFilter) := autoSearchFilters s in
    fetchVehicles serialFilter dealerFilter).

(** [handleClearSearch] *)
Definition handleClearSearch : Prog unit :=
  setState (Setters.searchSerialNumber_ "");;
  setState (Setters.searchDealerCode_ "").

(** The click handlers of the two mode buttons. *)
Definition clickSerialNumberMode : Prog unit :=
  setState (Setters.searchMode_ serial_number_mode);;
  setState (Setters.searchDealerCode_ "").

Definition clickDealerCodeMode : Prog unit :=
  setState (Setters.searchMode_ dealer_code_mode);;
  setState (Setters.searchSerialNumber_ "").

(** [handleDelete] *)
Definition handleDelete : Prog unit :=
  GetState (fun s =>
    match deletingVehicle s with
    | None => Ret tt
    | Some target =>
        outcome ← await (deleteVehicle (target_id target));
        match outcome with
        | Fulfilled response =>
            if success response then
              toast (toast_success
                       (JS.or_default (message response)
                          "Vehicle deleted successfully"));;
              setState (Setters.deletingVehicle_ None);;
              fetchVehicles None None
            else
              toast (toast_error
                       (JS.or_default (error response)
                          "Failed to delete vehicle"))
        | Rejected e =>
            toast (toast_error
                     (thrown_message e "An unexpected error occurred"))
        end
    end).

(** The two updaters of [handleMarkAsSold]. *)
Definition patchSold (vehicle : Vehicle) (prevVehicles : list Vehicle)
  : list Vehicle :=
  (fun v => if decide (id v = id vehicle) then with_status v sold else v)
    <$> prevVehicles.

Definition revertSold (vehicle : Vehicle) (prevVehicles : list Vehicle)
  : list Vehicle :=
  (fun v =>
     if decide (id v = id vehicle) then with_status v (status vehicle) else v)
    <$> prevVehicles.

(** [handleMarkAsSold(vehicle)] *)
Definition handleMarkAsSold (vehicle : Vehicle) : Prog unit :=
  setState (Setters.vehicles_ (patchSold vehicle));;
  outcome ← await (markAsSold (id vehicle));
  match outcome with
  | Fulfilled response =>
      if success response then
        toast (toast_success
                 (JS.or_default (message response)
                    "Vehicle marked as sold successfully"));;
        fetchVehicles None None
      else
        setState (Setters.vehicles_ (revertSold vehicle));;
        toast (toast_error
                 (JS.or_default (error response)
                    "Failed to mark vehicle as sold"))
  | Rejected e =>
      setState (Setters.vehicles_ (revertSold vehicle));;
      toast (toast_error (thrown_message e "An unexpected error occurred"))
  end.

(** [handleEditSave] and [handleEditCancel] *)
Definition handleEditSave : Prog unit :=
  setState (Setters.editingVehicle_ None);;
  fetchVehicles None None.

Definition handleEditCancel : Prog unit :=
  setState (Setters.editingVehicle_ None).

(** [onSubmit] of [EditVehicleForm], given its [vehicle] and [onSave]
    props. *)
Definition onSubmit (vehicle : Vehicle) (onSave : Prog unit)
    (data : VehicleFormData) : Prog unit :=
  GetState (fun s =>
    if isSubmitting s then Ret tt
    else
      setState (Setters.isSubmitting_ true);;
      outcome ← await (updateVehicle (id vehicle) data);
      match outcome with
      | Fulfilled response =>
          if success response then
            toast (toast_success
                     (JS.or_default (message response)
                        "Vehicle updated successfully"));;
            onSave
          else
            toast (toast_error
                     (JS.or_default (error response)
                        "Failed to update vehicle"))
      | Rejected e =>
          toast (toast_error
                   (thrown_message e "An unexpected error occurred"))
      end;;
      setState (Setters.isSubmitting_ false)).

(** ** The action menu of a table row *)

Record ActionMenuItem : Type := mkActionMenuItem {
  label : string;
  onClick : Prog unit;
  disabled : option bool
}.

(** The [items] prop built for the row of [vehicle]. *)
Definition actionItems (vehicle : Vehicle) : list ActionMenuItem :=
  [ {| label := "Edit";
       onClick := setState (Setters.editingVehicle_ (Some vehicle));
       disabled := Some (is_sold vehicle) |};
    {| label := "Mark as Sold";
       onClick := handleMarkAsSold vehicle;
       disabled := Some (is_sold vehicle) |};
    {| label := "Delete";
       onClick :=
         setState (Setters.deletingVehicle_
                     (Some {| target_id := id vehicle;
                              target_serialNumber := serial_number vehicle |}));
       disabled := None |} ].

(** The [disabled] attribute of the button rendered for an item: an absent
    flag leaves the button enabled. *)
Definition buttonDisabled (item : ActionMenuItem) : bool :=
  default false (disabled item).

(** [handleItemClick] of [ActionMenu] (closing the menu is local to the
    menu and left out). *)
Definition handleItemClick (item : ActionMenuItem) : Prog unit :=
  if negb (buttonDisabled item) then onClick item else Ret tt.

(** ** The mounted component *)

(** The dependency list of the auto-search effect, without the stable
    callback. *)
Definition EffectDeps : Type := string * string * VehicleSearchMode.

Definition effectDeps (s : Dashboard) : EffectDeps :=
  (Debounce.debouncedValue (debouncedSerialNumber s),
   Debounce.debouncedValue (debouncedDealerCode s),
   searchMode s).

(** A mounted dashboard: its state, the clock in milliseconds, the
    dependencies the effect last ran with, and the API calls and toasts so
    far. *)
Record Machine : Type := mkMachine {
  dash : Dashboard;
  now : Z;
  lastDeps : option EffectDeps;
  apiCalls : nat;
  history : list Event
}.

(** State of the first render, at time 0. *)
Definition initial : Dashboard :=
  {| vehicles := [];
     isLoading := true;
     currentPage := 1%Z;
     searchSerialNumber := "";
     searchDealerCode := "";
     searchMode := serial_number_mode;
     debouncedSerialNumber := Debounce.mount "" DEBOUNCE_DELAY_MS 0%Z;
     debouncedDealerCode := Debounce.mount "" DEBOUNCE_DELAY_MS 0%Z;
     editingVehicle := None;
     deletingVehicle := None;
     isSubmitting := false |}.

(** A render and the effects after it: both hooks see the current raw
    queries, and the auto-search effect runs when one of its dependencies
    differs from the last run (always on the first render). *)
Definition render (api : Api) (m : Machine) : Machine :=
  let s := dash m in
  let ds := Debounce.rerender (debouncedSerialNumber s) (searchSerialNumber s)
              DEBOUNCE_DELAY_MS (now m) in
  let dd := Debounce.rerender (debouncedDealerCode s) (searchDealerCode s)
              DEBOUNCE_DELAY_MS (now m) in
  let s1 := Setters.debounced_ ds dd s in
  if decide (lastDeps m = Some (effectDeps s1)) then
    mkMachine s1 (now m) (lastDeps m) (apiCalls m) (history m)
  else
    let '(_, s2, n, evs) := run api autoSearch s1 (apiCalls m) in
    mkMachine s2 (now m) (Some (effectDeps s1)) n (history m ++ evs).

Definition mounted (api : Api) : Machine :=
  render api (mkMachine initial 0%Z None 0 []).

(** An event handler runs, then the component renders. *)
Definition dispatch (api : Api) (p : Prog unit) (m : Machine) : Machine :=
  let '(_, s, n, evs) := run api p (dash m) (apiCalls m) in
  render api (mkMachine s (now m) (lastDeps m) n (history m ++ evs)).

(** The pending timeout that is due first, no later than [target]; the flag
    tells whether it belongs to the serial-number hook. *)
Definition nextDue (s : Dashboard) (target : Z) : option (bool * Z * string) :=
  let due tr :=
    match Debounce.timer tr with
    | Some (t, v) => if (t <=? target)%Z then Some (t, v) else None
    | None => None
    end in
  match due (debouncedSerialNumber s), due (debouncedDealerCode s) with
  | Some (t1, v1), Some (t2, v2) =>
      if (t1 <=? t2)%Z then Some (true, t1, v1) else Some (false, t2, v2)
  | Some (t1, v1), None => Some (true, t1, v1)
  | None, Some (t2, v2) => Some (false, t2, v2)
  | None, None => None
  end.

(** The first due timeout fires and the component renders. *)
Definition fireDue (api : Api) (target : Z) (m : Machine) : Machine :=
  let s := dash m in
  match nextDue s target with
  | Some (true, t, v) =>
      let s' := Setters.debounced_
                  (Debounce.fire (debouncedSerialNumber s) v)
                  (debouncedDealerCode s) s in
      render api (mkMachine s' t (lastDeps m) (apiCalls m) (history m))
  | Some (false, t, v) =>
      let s' := Setters.debounced_
                  (debouncedSerialNumber s)
                  (Debounce.fire (debouncedDealerCode s) v) s in
      render api (mkMachine s' t (lastDeps m) (apiCalls m) (history m))
  | None => m
  end.

(** [dt] milliseconds pass: at most the two pending timeouts fire, in the
    order they are due. *)
Definition elapse (api : Api) (dt : Z) (m : Machine) : Machine :=
  let target := (now m + Z.max 0 dt)%Z in
  let m' := fireDue api target (fireDue api target m) in
  mkMachine (dash m') target (lastDeps m') (apiCalls m') (history m').

(** What can happen to a mounted dashboard. *)
Inductive Action : Type :=
| SetMode (mode : VehicleSearchMode)
| SetSerialQuery (q : string)
| SetDealerQuery (q : string)
| ClearSearch
| Elapse (dt : Z)
| ChooseDelete (target : DeleteTarget)
| CancelDelete
| ConfirmDelete
| ClickMarkAsSold (vehicle : Vehicle)
| ChooseEdit (vehicle : Vehicle)
| CancelEdit
| SubmitEdit (vehicle : Vehicle) (data : VehicleFormData)
| ClickPrevious
| ClickNext.

Definition setMode (mode : VehicleSearchMode) : Prog unit :=
  match mode with
  | serial_number_mode => clickSerialNumberMode
  | dealer_code_mode => clickDealerCodeMode
  end.

Definition step (api : Api) (a : Action) (m : Machine) : Machine :=
  match a with
  | SetMode mode => dispatch api (setMode mode) m
  | SetSerialQuery q =>
      dispatch api (setState (Setters.searchSerialNumber_ q)) m
  | SetDealerQuery q =>
      dispatch api (setState (Setters.searchDealerCode_ q)) m
  | ClearSearch => dispatch api handleClearSearch m
  | Elapse dt => elapse api dt m
  | ChooseDelete target =>
      dispatch api (setState (Setters.deletingVehicle_ (Some target))) m
  | CancelDelete => dispatch api (setState (Setters.deletingVehicle_ None)) m
  | ConfirmDelete => dispatch api handleDelete m
  | ClickMarkAsSold vehicle => dispatch api (handleMarkAsSold vehicle) m
  | ChooseEdit vehicle =>
      dispatch api (setState (Setters.editingVehicle_ (Some vehicle))) m
  | CancelEdit => dispatch api handleEditCancel m
  | SubmitEdit vehicle data =>
      dispatch api (onSubmit vehicle handleEditSave data) m
  | ClickPrevious =>
      dispatch api
        (setState (Setters.currentPage_ Pagination.clickPrevious)) m
  | ClickNext =>
      dispatch api
        (GetState (fun s =>
           setState (Setters.currentPage_
                       (Pagination.clickNext (vehicles s))))) m
  end.

Definition steps (api : Api) (actions : list Action) (m : Machine) : Machine :=
  foldl (fun m a => step api a m) m actions.

(** The query of the mode that is not active. *)
Definition inactiveQuery (s : Dashboard) : string :=
  match searchMode s with
  | serial_number_mode => searchDealerCode s
  | dealer_code_mode => searchSerialNumber s
  end.

(** The filters of a list request agree with the mode the component was in:
    the filter of the other mode is [undefined], and the filter of the
    active mode is the trimmed debounced query, or [undefined]. *)
Definition filtersFollowMode (serialNumber dealerCode : option string)
    (s : Dashboard) : Prop :=
  match searchMode s with
  | serial_number_mode =>
      dealerCode = None /\
      (serialNumber = None \/
       serialNumber =
         Some (JS.trim (Debounce.debouncedValue (debouncedSerialNumber s))) /\
       serialNumber <> Some "")
  | dealer_code_mode =>
      serialNumber = None /\
      (dealerCode = None \/
       dealerCode =
         Some (JS.trim (Debounce.debouncedValue (debouncedDealerCode s))) /\
       dealerCode <> Some "")
  end.

Definition fetchFollowsMode (ev : Event) : Prop :=
  match ev with
  | Called r s =>
      match r with
      | getVehicles serialNumber dealerCode =>
          filtersFollowMode serialNumber dealerCode s
      | _ => True
      end
  | Toasted _ => True
  end.

(** A handler all of whose list requests agree with the search mode,
    whatever the server answers and whatever state it starts in. *)
Definition followsMode (p : Prog unit) : Prop :=
  forall (api : Api) s n,
    Forall fetchFollowsMode (eventsOf (run api p s n)).

(** The list requests among the events of a history. *)
Definition listRequests (evs : list Event)
  : list (option string * option string) :=
  omap (fun ev =>
          match ev with
          | Called r _ =>
              match r with
              | getVehicles serialNumber dealerCode =>
                  Some (serialNumber, dealerCode)
              | _ => None
              end
          | Toasted _ => None
          end) evs.

(** ** Further derived values of the dashboard view *)

(** [hasSearchFilters] and [isSearchPending] *)
Definition hasSearchFilters (s : Dashboard) : bool :=
  (0 <? String.length (JS.trim (searchSerialNumber s)))%nat
  || (0 <? String.length (JS.trim (searchDealerCode s)))%nat.

Definition isSearchPending (s : Dashboard) : bool :=
  negb (bool_decide
          (searchSerialNumber s
           = Debounce.debouncedValue (debouncedSerialNumber s)))
  || negb (bool_decide
             (searchDealerCode s
              = Debounce.debouncedValue (debouncedDealerCode s))).

(** [disabled={!hasSearchFilters}] of the Clear Filters button. *)
Definition clearDisabled (s : Dashboard) : bool := negb (hasSearchFilters s).

(** Whether the loading and the empty section are rendered: past the early
    return for the edit form, the guards are [isLoading] and
    [!isLoading && vehicles.length === 0]. *)
Definition showsLoading (editingVehicle : option Vehicle) (isLoading : bool)
  : bool :=
  negb (Pagination.showsEditForm editingVehicle) && isLoading.

Definition showsEmpty (editingVehicle : option Vehicle) (isLoading : bool)
    (vehicles : list Vehicle) : bool :=
  negb (Pagination.showsEditForm editingVehicle)
  && (negb isLoading && (Z.of_nat (length vehicles) =? 0)%Z).

(** The two numbers of "Showing a to b of n":
    [startIndex + 1] and [Math.min(endIndex, vehicles.length)]. *)
Definition showingFrom (currentPage : Z) : Z :=
  (Pagination.startIndex currentPage + 1)%Z.

Definition showingTo (vehicles : list Vehicle) (currentPage : Z) : Z :=
  Z.min (Pagination.endIndex currentPage) (Z.of_nat (length vehicles)).

(** A query without any character other than white space: stripping
    leading white space leaves nothing. *)
Definition blank (q : string) : bool :=
  match JS.trim_start (String.list_ascii_of_string q) with
  | [] => true
  | _ :: _ => false
  end.

(** Sequences none of which is empty or starts another one. *)
Definition prefixFree (ps : list (list Ascii.ascii)) : bool :=
  forallb (fun p =>
    match p with [] => false | _ :: _ => true end
    && forallb (fun p' =>
         match JS.strip_prefix p p' with
         | Some [] => true
         | Some (_ :: _) => false
         | None => true
         end) ps) ps.

(** An awaited mutation that did not succeed: it threw, or its envelope
    does not have [success]. *)
Definition unsuccessful (outcome : Settled ApiResponse) : Prop :=
  match outcome with
  | Fulfilled response => success response = false
  | Rejected _ => True
  end.

(** ** The edit form: schema and submission *)

(** [vehicleFormSchema]: the issues it reports, in the order of the keys.
    [min(1)] looks at the length only, so blanks count. *)
Definition vehicleFormSchema (data : VehicleFormData)
  : list (string * string) :=
  let required (field : string) (text msg : string) :=
    if (1 <=? String.length text)%nat then [] else [(field, msg)] in
  required "dealer_code" (form_dealer_code data) "Dealer code is required"
  ++ required "model_name" (form_model_name data) "Model name is required"
  ++ required "serial_number" (form_serial_number data)
       "Serial number is required".

Definition isValid (data : VehicleFormData) : bool :=
  match vehicleFormSchema data with
  | [] => true
  | _ :: _ => false
  end.

(** [canSubmit = isValid && !isSubmitting] *)
Definition canSubmit (data : VehicleFormData) (s : Dashboard) : bool :=
  isValid data && negb (isSubmitting s).

(** The values the edit form is reset to for [vehicle]. *)
Definition formOfVehicle (vehicle : Vehicle) : VehicleFormData :=
  {| form_dealer_code := JS.or_default (Some (dealer_code vehicle)) "";
     form_dealer_name := JS.or_default (dealer_name vehicle) "";
     form_dealer_address := JS.or_default (dealer_address vehicle) "";
     form_dealer_city := JS.or_default (dealer_city vehicle) "";
     form_dealer_state := JS.or_default (dealer_state vehicle) "";
     form_model_name := JS.or_default (Some (model_name vehicle)) "";
     form_model_id := JS.or_default (model_id vehicle) "";
     form_battery_power := JS.or_default (battery_power vehicle) "";
     form_serial_number := JS.or_default (Some (serial_number vehicle)) "" |}.

(** [handleSubmit(onValid)] of the form library: the callback runs only on
    values the resolver accepts. *)
Definition handleSubmit (onValid : VehicleFormData -> Prog unit)
    (data : VehicleFormData) : Prog unit :=
  if isValid data then onValid data else Ret tt.

(** Submitting the edit form of [vehicle] as the dashboard renders it. *)
Definition submitEditForm (vehicle : Vehicle) (data : VehicleFormData)
  : Prog unit :=
  handleSubmit (onSubmit vehicle handleEditSave) data.

(** The update requests among the events of a history. *)
Definition updateRequests (evs : list Event) : list (Z * VehicleFormData) :=
  omap (fun ev =>
          match ev with
          | Called r _ =>
              match r with
              | updateVehicle vehicleId formData => Some (vehicleId, formData)
              | _ => None
              end
          | Toasted _ => None
          end) evs.

(** ** Predicates on trackers and on the mounted component *)

Module Tracking.
Import Debounce.
Local Open Scope Z_scope.

Section Predicates.
Context {T : Type}.

(** The pending timeout carries the current input; with none pending the
    delayed value is the current input. *)
Definition coherent (tr : tracker T) : Prop :=
  match timer tr with
  | Some (_, v) => v = value tr
  | None => debouncedValue tr = value tr
  end.

(** Changes that are more than [delay] apart (the first one more than
    [delay] after [t0]), each with a value other than the previous one. *)
Fixpoint spaced (delay t0 : Z) (v0 : T) (changes : list (Z * T)) : Prop :=
  match changes with
  | [] => True
  | (t, v) :: rest => t0 + delay < t /\ v <> v0 /\ spaced delay t v rest
  end.

(** A coherent tracker whose timeout, if any, is due between [now] and
    [now + delay]. *)
Definition onTime (delay now : Z) (tr : tracker T) : Prop :=
  match timer tr with
  | Some (due, v) => v = value tr /\ now <= due <= now + delay
  | None => debouncedValue tr = value tr
  end.

End Predicates.
End Tracking.

(** The current page is a page of the list, unless the list is empty. *)
Definition pageInRange (s : Dashboard) : Prop :=
  vehicles s = [] \/
  (1 <= currentPage s <= Pagination.totalPages (vehicles s))%Z.

(** What holds of a mounted dashboard between two actions: the effect has
    run for the current dependencies, both hooks have seen the current
    queries and are on time, and the page is in range. *)
Record Stable (m : Machine) : Prop := mkStable {
  deps_current : lastDeps m = Some (effectDeps (dash m));
  serial_seen :
    Debounce.value (debouncedSerialNumber (dash m))
    = searchSerialNumber (dash m);
  dealer_seen :
    Debounce.value (debouncedDealerCode (dash m)) = searchDealerCode (dash m);
  serial_on_time :
    Tracking.onTime DEBOUNCE_DELAY_MS (now m) (debouncedSerialNumber (dash m));
  dealer_on_time :
    Tracking.onTime DEBOUNCE_DELAY_MS (now m) (debouncedDealerCode (dash m));
  page_in_range : pageInRange (dash m)
}.

(** A handler that leaves both hooks alone and keeps the page in range. *)
Definition keepsView (p : Prog unit) : Prop :=
  forall (api : Api) s n,
    let s' := finalState (run api p s n) in
    debouncedSerialNumber s' = debouncedSerialNumber s /\
    debouncedDealerCode s' = debouncedDealerCode s /\
    (pageInRange s -> pageInRange s').

(** A handler that only sets local state: it makes no call, raises no
    toast and leaves the dependencies of the auto-search effect and the
    list alone. *)
Definition staysLocal (p : Prog unit) : Prop :=
  forall (api : Api) s n,
    exists s',
      run api p s n = (tt, s', n, []) /\
      effectDeps s' = effectDeps s /\
      vehicles s' = vehicles s.

(** The handler [step] dispatches for an action (none for the passing of
    time). *)
Definition handlerOf (a : Action) : Prog unit :=
  match a with
  | SetMode mode => setMode mode
  | SetSerialQuery q => setState (Setters.searchSerialNumber_ q)
  | SetDealerQuery q => setState (Setters.searchDealerCode_ q)
  | ClearSearch => handleClearSearch
  | Elapse _ => Ret tt
  | ChooseDelete target => setState (Setters.deletingVehicle_ (Some target))
  | CancelDelete => setState (Setters.deletingVehicle_ None)
  | ConfirmDelete => handleDelete
  | ClickMarkAsSold vehicle => handleMarkAsSold vehicle
  | ChooseEdit vehicle => setState (Setters.editingVehicle_ (Some vehicle))
  | CancelEdit => handleEditCancel
  | SubmitEdit vehicle data => onSubmit vehicle handleEditSave data
  | ClickPrevious => setState (Setters.currentPage_ Pagination.clickPrevious)
  | ClickNext =>
      GetState (fun s =>
        setState (Setters.currentPage_ (Pagination.clickNext (vehicles s))))
  end.

(** Actions whose handlers only touch local state. *)
Definition isLocal (a : Action) : bool :=
  match a with
  | SetSerialQuery _ | SetDealerQuery _ | ClearSearch
  | ChooseDelete _ | CancelDelete | ChooseEdit _ | CancelEdit
  | ClickPrevious | ClickNext => true
  | _ => false
  end.

(** ** The application shell and the login form *)

Module Shell.

Inductive PageView : Type := dashboard_view | add_view.

(** The state of a mounted [LoginForm]. *)
Record LoginForm : Type := mkLoginForm {
  username : string;
  password : string;
  loginError : string
}.

Definition HARDCODED_USERNAME : string := "admin".
Definition HARDCODED_PASSWORD : string := "123456".

Definition freshLogin : LoginForm := mkLoginForm "" "" "".

(** The state of [App], with the state of the login form it shows while
    nobody is logged in; the form is mounted anew, and so fresh, whenever
    it is shown again. *)
Record App : Type := mkApp {
  isAuthenticated : bool;
  currentView : PageView;
  login : LoginForm
}.

Definition initialApp : App := mkApp false dashboard_view freshLogin.

(** [handleLoginSuccess], [handleLogout], [handleNavigateToAdd] and
    [handleNavigateToDashboard] *)
Definition handleLoginSuccess (a : App) : App :=
  mkApp true dashboard_view (login a).

Definition handleLogout (a : App) : App :=
  mkApp false dashboard_view freshLogin.

Definition handleNavigateToAdd (a : App) : App :=
  mkApp (isAuthenticated a) add_view (login a).

Definition handleNavigateToDashboard (a : App) : App :=
  mkApp (isAuthenticated a) dashboard_view (login a).

(** [handleLogin] of the form shown by [a]. *)
Definition handleLogin (a : App) : App :=
  let form := login a in
  let cleared := mkLoginForm (username form) (password form) "" in
  if String.eqb (username form) HARDCODED_USERNAME
     && String.eqb (password form) HARDCODED_PASSWORD
  then handleLoginSuccess (mkApp (isAuthenticated a) (currentView a) cleared)
  else mkApp (isAuthenticated a) (currentView a)
         (mkLoginForm (username form) (password form)
            "Invalid username or password.").

(** What a user can do; each control exists only in the view that renders
    it, and the login form, whose two inputs are [required], is not
    submitted while one of them is empty. *)
Inductive UserAction : Type :=
| TypeUsername (text : string)
| TypePassword (text : string)
| SubmitLogin
| ClickLogout
| ClickAddVehicle
| LeaveAddVehicle.

Definition act (u : UserAction) (a : App) : App :=
  if isAuthenticated a then
    match u, currentView a with
    | ClickLogout, _ => handleLogout a
    | ClickAddVehicle, dashboard_view => handleNavigateToAdd a
    | LeaveAddVehicle, add_view => handleNavigateToDashboard a
    | _, _ => a
    end
  else
    match u with
    | TypeUsername text =>
        mkApp (isAuthenticated a) (currentView a)
          (mkLoginForm text (password (login a)) (loginError (login a)))
    | TypePassword text =>
        mkApp (isAuthenticated a) (currentView a)
          (mkLoginForm (username (login a)) text (loginError (login a)))
    | SubmitLogin =>
        if String.eqb (username (login a)) ""
           || String.eqb (password (login a)) ""
        then a
        else handleLogin a
    | _ => a
    end.

Definition acts (us : list UserAction) (a : App) : App :=
  foldl (fun a u => act u a) a us.

End Shell.

(** ** Sample data *)

Module Samples.

Definition sample (i : Z) (st : option string) : Vehicle :=
  mkVehicle i "D001" None None None None "Chetak" None None "SN" st.

(** Twelve available vehicles with the ids 0 to 11. *)
Definition twelve : list Vehicle := (fun i => sample i None) <$> seqZ 0 12.

(** A dashboard showing them, with a serial-number search for "ABC" that
    has settled and vehicle 7 awaiting the confirmation of its delete. *)
Definition searching : Dashboard :=
  {| vehicles := twelve;
     isLoading := false;
     currentPage := 2%Z;
     searchSerialNumber := "ABC";
     searchDealerCode := "";
     searchMode := serial_number_mode;
     debouncedSerialNumber := Debounce.mkTracker "ABC" "ABC" None;
     debouncedDealerCode := Debounce.mkTracker "" "" None;
     editingVehicle := None;
     deletingVehicle := Some (mkDeleteTarget 7 "SN");
     isSubmitting := false |}.

(** A space, U+00A0 and U+2028. *)
Definition blanks : string :=
  String.string_of_list_ascii
    (JS.utf8 32 ++ JS.utf8 160 ++ JS.utf8 8232).

Definition edited : VehicleFormData :=
  mkVehicleFormData "D001" "" "" "" "" "Chetak" "" "" "SN".

(** A server that lists the twelve vehicles and answers every mutation
    with the given envelope. *)
Definition answering (envelope : ApiResponse) : Api :=
  fun _ R r =>
    match r in Request R return Settled R with
    | getVehicles _ _ => Fulfilled (mkVehicleListResponse (Some twelve) None)
    | deleteVehicle _ => Fulfilled envelope
    | markAsSold _ => Fulfilled envelope
    | updateVehicle _ _ => Fulfilled envelope
    end.

Definition accepting : Api := answering (mkApiResponse true None None).

Definition refusing : Api :=
  answering (mkApiResponse false None (Some "Vehicle not found")).

(** A server whose list operation reports an error. *)
Definition failing : Api :=
  fun _ R r =>
    match r in Request R return Settled R with
    | getVehicles _ _ =>
        Fulfilled (mkVehicleListResponse (Some [])
                     (Some "HTTP 500: Internal Server Error"))
    | deleteVehicle _ | markAsSold _ | updateVehicle _ _ =>
        Fulfilled (mkApiResponse false None None)
    end.

(** A client whose every call throws. *)
Definition offline : Api :=
  fun _ R _ => Rejected (ThrownError "Network request failed").

End Samples.

(** * Properties *)

(** ** Pagination *)

Module PaginationFacts.
Import Pagination.
Local Open Scope Z_scope.

(** [ceil_div a b] is the least integer [q] with [a <= b * q]. *)
Lemma ceil_div_bounds (a b : Z) :
  0 < b -> b * (JS.ceil_div a b - 1) < a <= b * JS.ceil_div a b.
Proof.
  intros Hb. unfold JS.ceil_div.
  pose proof (Z.div_mod (- a) b ltac:(lia)) as Hdm.
  pose proof (Z.mod_pos_bound (- a) b Hb) as Hm.
  nia.
Qed.

Lemma totalPages_bounds (vehicles : list Vehicle) :
  5 * (totalPages vehicles - 1) < Z.of_nat (length vehicles)
    <= 5 * totalPages vehicles.
Proof. apply (ceil_div_bounds _ 5). lia. Qed.

Lemma totalPages_nonneg (vehicles : list Vehicle) : 0 <= totalPages vehicles.
Proof. pose proof (totalPages_bounds vehicles). lia. Qed.

Section Slices.
Context {A : Type}.
Implicit Types l : list A.

(** With [0 <= a <= b] the slice is [b - a] elements from offset [a],
    as many as there are. *)
Lemma slice_nonneg l (a b : Z) :
  0 <= a <= b ->
  JS.slice l a b = take (Z.to_nat (b - a)) (drop (Z.to_nat a) l).
Proof.
  intros [Ha Hab]. unfold JS.slice.
  destruct (Z.ltb_spec a 0) as [?|_]; [lia|].
  destruct (Z.ltb_spec b 0) as [?|_]; [lia|].
  destruct (Z_le_gt_dec b (Z.of_nat (length l))) as [Hb|Hb].
  - rewrite !Z.min_l by lia. f_equal. lia.
  - rewrite (Z.min_r b) by lia.
    destruct (Z_le_gt_dec a (Z.of_nat (length l))) as [Hal|Hal].
    + rewrite Z.min_l by lia.
      rewrite !take_ge; [done| |]; rewrite length_drop; lia.
    + rewrite Z.min_r by lia.
      rewrite (drop_ge l (Z.to_nat a)) by lia.
      rewrite take_nil. replace (Z.to_nat _) with 0%nat by lia. done.
Qed.

(** Consecutive windows of width [w] glue to a prefix. *)
Lemma concat_windows l (w k : nat) :
  concat ((fun i : nat => take w (drop (w * i) l)) <$> seq 0 k)
  = take (w * k) l.
Proof.
  induction k as [|k IH].
  - rewrite Nat.mul_0_r. done.
  - rewrite seq_S, fmap_app, concat_app, IH. simpl.
    rewrite app_nil_r, take_take_drop. f_equal. lia.
Qed.
End Slices.

(** Page [i + 1] is the window of width 5 at offset [5 * i]. *)
Lemma currentVehicles_window (vehicles : list Vehicle) (i : nat) :
  currentVehicles vehicles (Z.of_nat i + 1)
  = take 5 (drop (5 * i) vehicles).
Proof.
  unfold currentVehicles, endIndex, startIndex, ITEMS_PER_PAGE.
  rewrite slice_nonneg by lia. f_equal; [|f_equal]; lia.
Qed.

Lemma pages_seq (vehicles : list Vehicle) :
  pages vehicles
  = (fun i : nat => Z.of_nat i + 1) <$> seq 0 (Z.to_nat (totalPages vehicles)).
Proof. reflexivity. Qed.

Lemma concat_pages (vehicles : list Vehicle) :
  concat (currentVehicles vehicles <$> pages vehicles) = vehicles.
Proof.
  rewrite pages_seq, <- list_fmap_compose.
  erewrite list_fmap_ext;
    [|intros i x _; simpl; apply currentVehicles_window].
  rewrite concat_windows. apply take_ge.
  pose proof (totalPages_bounds vehicles). lia.
Qed.

Lemma length_concat_sum {A} (ls : list (list A)) :
  length (concat ls) = sum_list (length <$> ls).
Proof.
  induction ls as [|l ls IH]; simpl; [done|].
  rewrite length_app, IH. done.
Qed.

Lemma page_length (vehicles : list Vehicle) (p : Z) :
  1 <= p ->
  Z.of_nat (length (currentVehicles vehicles p))
  = Z.max 0 (Z.min 5 (Z.of_nat (length vehicles) - 5 * (p - 1))).
Proof.
  intros Hp. replace p with (Z.of_nat (Z.to_nat (p - 1)) + 1) at 1 by lia.
  rewrite currentVehicles_window, length_take, length_drop. lia.
Qed.

(** C5. For every list, the visible slices of the pages 1..totalPages,
    glued in order, are the list itself, so their lengths add up to its
    length; every page before the last holds exactly 5 entries and the
    last one between 1 and 5; a list of 12 has 3 pages and page 3 holds
    exactly the entries at indices 10 and 11. *)
Theorem pages_partition_list (vehicles : list Vehicle) :
  let page := currentVehicles vehicles in
  concat (page <$> pages vehicles) = vehicles /\
  sum_list (length <$> (page <$> pages vehicles)) = length vehicles /\
  (forall p, 1 <= p < totalPages vehicles -> length (page p) = 5%nat) /\
  (1 <= totalPages vehicles ->
   (1 <= length (page (totalPages vehicles)) <= 5)%nat) /\
  (length vehicles = 12%nat ->
   totalPages vehicles = 3 /\
   length (page 3) = 2%nat /\
   page 3 !! 0%nat = vehicles !! 10%nat /\
   page 3 !! 1%nat = vehicles !! 11%nat).
Proof.
  intros page. pose proof (totalPages_bounds vehicles) as Hb.
  split; [apply concat_pages|].
  split; [rewrite <- length_concat_sum; f_equal; apply concat_pages|].
  split; [|split].
  - intros p Hp. pose proof (page_length vehicles p ltac:(lia)).
    subst page. lia.
  - intros Hp.
    pose proof (page_length vehicles (totalPages vehicles) Hp).
    subst page. lia.
  - intros Hlen. assert (totalPages vehicles = 3) as Htp by lia.
    split; [done|]. subst page.
    change 3 with (Z.of_nat 2 + 1). rewrite currentVehicles_window.
    split; [rewrite length_take, length_drop; lia|].
    split; rewrite lookup_take_lt, lookup_drop by lia; done.
Qed.

Lemma pages_partition_list_witness :
  totalPages Samples.twelve = 3 /\
  length (currentVehicles Samples.twelve 1) = 5%nat /\
  id <$> currentVehicles Samples.twelve 3 = [10; 11].
Proof.
  pose proof (pages_partition_list Samples.twelve) as (_ & _ & Hfull & _ & H12).
  destruct (H12 eq_refl) as (Htp & _).
  split; [exact Htp|].
  split; [apply Hfull; rewrite Htp; lia|].
  vm_compute. reflexivity.
Defined.

(** C6, as the code has it. The page count is the ceiling of
    [length / 5]: the least [k] with [length <= 5 * k]. It is 0 for the
    empty list and [max 1 (ceil (length / 5))] for every other list. The
    pagination bar sits inside the table section, which is rendered only
    when the edit form is not open, the list is not loading and it is not
    empty; within that section the bar is hidden exactly when
    [totalPages <= 1], and overall it is hidden exactly when the edit form
    is open, the list is loading, or [totalPages <= 1]. *)
Theorem page_count_is_ceiling (vehicles : list Vehicle)
    (editingVehicle : option Vehicle) (isLoading : bool) :
  let len := Z.of_nat (length vehicles) in
  5 * (totalPages vehicles - 1) < len <= 5 * totalPages vehicles /\
  (vehicles = [] -> totalPages vehicles = 0) /\
  (vehicles <> [] ->
   totalPages vehicles = Z.max 1 (JS.ceil_div len 5)) /\
  (showsTable editingVehicle isLoading vehicles = true <->
   editingVehicle = None /\ isLoading = false /\ vehicles <> []) /\
  (showsTable editingVehicle isLoading vehicles = true ->
   (showsPagination editingVehicle isLoading vehicles = false <->
    totalPages vehicles <= 1)) /\
  (showsPagination editingVehicle isLoading vehicles = false <->
   editingVehicle <> None \/ isLoading = true \/ totalPages vehicles <= 1).
Proof.
  intros len. pose proof (totalPages_bounds vehicles) as Hb.
  split; [exact Hb|].
  split; [intros ->; reflexivity|].
  split.
  { intros Hne.
    assert (0 < len) by (subst len; destruct vehicles; [done|simpl; lia]).
    subst len. unfold totalPages, ITEMS_PER_PAGE in *. lia. }
  assert (vehicles <> [] <-> 0 < Z.of_nat (length vehicles)) as Hlen.
  { destruct vehicles; cbn; split; intros; try done; lia. }
  unfold showsPagination, showsTable, showsEditForm.
  destruct (Z.ltb_spec 1 (totalPages vehicles)) as [Htp|Htp];
    destruct (Z.ltb_spec 0 (Z.of_nat (length vehicles))) as [Hl|Hl];
    destruct isLoading, editingVehicle as [v|]; cbn;
    rewrite ?Hlen; intuition (try done; try lia).
Qed.

Lemma page_count_is_ceiling_witness :
  totalPages Samples.twelve = Z.max 1 (JS.ceil_div 12 5) /\
  (showsPagination None false Samples.twelve = false <->
   totalPages Samples.twelve <= 1).
Proof.
  pose proof (page_count_is_ceiling Samples.twelve None false)
    as (_ & _ & Hmax & _ & Hbar & _).
  split.
  - apply Hmax. discriminate.
  - apply Hbar. reflexivity.
Defined.

(** C6 as stated fails on the empty list, whose page count is 0 where
    [max 1 (ceil (0 / 5))] is 1; and the bar is also hidden while a list
    of several pages is loading, or while the edit form is open. *)
Lemma page_count_empty_list_is_zero :
  totalPages [] = 0 /\
  totalPages [] <> Z.max 1 (JS.ceil_div (Z.of_nat (length (@nil Vehicle))) 5) /\
  (showsPagination None true Samples.twelve = false /\
   showsPagination (Some (Samples.sample 7 None)) false Samples.twelve
   = false /\
   ~ totalPages Samples.twelve <= 1).
Proof. vm_compute. repeat split; intros; discriminate || (try done). Qed.

(** C7. With the current page within [1 .. totalPages]: Previous on page 1
    and Next on the last page leave the page as it is, both as updaters
    and as clicks on the (then disabled) buttons; and after either
    operation the page is still within [1 .. max 1 totalPages]. *)
Theorem navigation_stays_in_range (vehicles : list Vehicle) (currentPage : Z) :
  1 <= currentPage <= totalPages vehicles ->
  (currentPage = 1 ->
   previousPage currentPage = currentPage /\
   clickPrevious currentPage = currentPage) /\
  (currentPage = totalPages vehicles ->
   nextPage vehicles currentPage = currentPage /\
   clickNext vehicles currentPage = currentPage) /\
  1 <= previousPage currentPage <= Z.max 1 (totalPages vehicles) /\
  1 <= nextPage vehicles currentPage <= Z.max 1 (totalPages vehicles) /\
  1 <= clickPrevious currentPage <= Z.max 1 (totalPages vehicles) /\
  1 <= clickNext vehicles currentPage <= Z.max 1 (totalPages vehicles).
Proof.
  intros Hrange.
  unfold clickPrevious, clickNext, previousDisabled, nextDisabled,
    previousPage, nextPage.
  destruct (Z.eqb_spec currentPage 1);
    destruct (Z.eqb_spec currentPage (totalPages vehicles));
    repeat split; intros; lia.
Qed.

Lemma navigation_stays_in_range_witness :
  nextPage Samples.twelve 3 = 3 /\
  clickNext Samples.twelve 3 = 3 /\
  1 <= previousPage 3 <= Z.max 1 (totalPages Samples.twelve).
Proof.
  assert (1 <= 3 <= totalPages Samples.twelve) as Hrange
    by (vm_compute; split; discriminate).
  pose proof (navigation_stays_in_range Samples.twelve 3 Hrange)
    as (_ & Hnext & Hprev & _).
  destruct (Hnext eq_refl) as [Hn Hc].
  split; [exact Hn|]. split; [exact Hc|exact Hprev].
Defined.

End PaginationFacts.

(** ** The debounce hook *)

Module DebounceFacts.
Import Debounce.
Local Open Scope Z_scope.

Section Burst.
Context {T : Type} `{EqDecision T}.
Variable delay : Z.
Implicit Types tr : tracker T.

Lemma last_cons_default (c d : Z * T) (l : list (Z * T)) :
  List.last (c :: l) d = List.last l c.
Proof.
  revert c d. induction l as [|x l IH]; intros c d; [done|].
  change (List.last (c :: x :: l) d) with (List.last (x :: l) d).
  rewrite !IH. done.
Qed.

(** While a timeout set at [t0] is pending, a burst only ever replaces
    it: nothing is emitted, and the timeout left is the one of the last
    change. *)
Lemma play_replaces_timeout (rest : list (Z * T)) :
  forall t0 tr,
    timer tr = Some (t0 + delay, value tr) ->
    burst delay t0 (value tr) rest ->
    play tr delay rest
    = ({| value := (List.last rest (t0, value tr)).2;
          debouncedValue := debouncedValue tr;
          timer := Some ((List.last rest (t0, value tr)).1 + delay,
                         (List.last rest (t0, value tr)).2) |}, []).
Proof.
  induction rest as [|[t v] rest IH]; intros t0 tr Htimer Hburst.
  - destruct tr as [v0 dv tm]; simpl in *. subst tm. done.
  - destruct Hburst as (Hle & Hlt & Hne & Hrest).
    cbn [play]. unfold advance. rewrite Htimer.
    destruct (Z.leb_spec (t0 + delay) t) as [?|_]; [lia|].
    unfold rerender. destruct (decide (v = value tr)) as [?|_]; [done|].
    rewrite (IH t); [|done|exact Hrest].
    rewrite last_cons_default. done.
Qed.

(** C4, as the code has it. Take a tracker with no timeout due, and a
    burst of input changes, each carrying a value other than the
    previous one and coming less than [delay] after the previous one.
    Then [setDebouncedValue] is called exactly once, with the last
    value, [delay] after the last change; no other value is ever
    passed to it; afterwards the delayed value is the last value and no
    timeout is pending. The delayed value itself changes exactly once
    when the last value differs from the one held before the burst, and
    not at all when it is that value again. *)
Theorem burst_emits_last_value_once tr (t1 : Z) (v1 : T)
    (rest : list (Z * T)) (horizon : Z) :
  0 <= delay ->
  settled_at tr t1 ->
  v1 <> value tr ->
  burst delay t1 v1 rest ->
  (List.last rest (t1, v1)).1 + delay <= horizon ->
  let tn := (List.last rest (t1, v1)).1 in
  let vn := (List.last rest (t1, v1)).2 in
  let result := play_until tr delay ((t1, v1) :: rest) horizon in
  result.2 = [(tn + delay, vn)] /\
  debouncedValue result.1 = vn /\
  timer result.1 = None /\
  observed (debouncedValue tr) result.2
  = if decide (vn = debouncedValue tr) then [] else [(tn + delay, vn)].
Proof.
  intros Hdelay Hsettled Hne Hburst Hhorizon tn vn result.
  assert (result
          = ({| value := vn; debouncedValue := vn; timer := None |},
             [(tn + delay, vn)])) as ->.
  { subst result. unfold play_until. cbn [play].
    assert (advance tr t1 = (tr, [])) as ->.
    { unfold advance, settled_at in *.
      destruct (timer tr) as [[due x]|]; [|done].
      destruct (Z.leb_spec due t1); [lia|done]. }
    unfold rerender at 1.
    destruct (decide (v1 = value tr)) as [?|_]; [done|].
    rewrite (play_replaces_timeout rest t1); [|done|exact Hburst].
    cbn [value debouncedValue]. unfold advance. cbn [timer].
    fold tn vn.
    destruct (Z.leb_spec (tn + delay) horizon) as [_|?]; [|lia].
    done. }
  cbn [fst snd debouncedValue timer observed].
  repeat split.
Qed.

End Burst.

(** Typing "ABC" and then "ABC123" 200 ms later into a settled tracker:
    one call, with "ABC123", 500 ms after the second keystroke. *)
Lemma burst_emits_last_value_once_witness :
  (play_until (mkTracker "" "" None) 500
     [(1000, "ABC"); (1200, "ABC123")] 2000).2 = [(1700, "ABC123")].
Proof.
  pose proof (burst_emits_last_value_once 500 (mkTracker "" "" None)
                1000 "ABC" [(1200, "ABC123")] 2000) as Hthm.
  apply Hthm; simpl; try lia; done.
Defined.

(** C4 as stated fails when the burst ends on the value the tracker
    already exposes: the input goes from the empty string to "a" and back
    within 100 ms, the only call made passes the empty string, and the
    delayed value never changes, where the claim has exactly one
    change. *)
Lemma burst_back_to_start_emits_no_change :
  let tr := mkTracker "" "" None in
  let result := play_until tr 500 [(0, "a"); (100, "")] 1000 in
  (advance (mount "" 500 (-600)) 0).1 = tr /\
  settled_at tr 0 /\
  "a" <> value tr /\
  burst 500 0 "a" [(100, "")] /\
  result.2 = [(600, "")] /\
  observed (debouncedValue tr) result.2 = [] /\
  length (observed (debouncedValue tr) result.2) <> 1%nat.
Proof.
  vm_compute. repeat split; try discriminate; try done.
Qed.

End DebounceFacts.

(** ** Handlers *)

Module HandlerFacts.

(** Running a sequence is running its parts in turn. *)
Lemma run_bind {A B} (api : Api) (p : Prog A) (f : A -> Prog B) :
  forall s n,
    run api (p ≫= f) s n
    = let '(a, s1, n1, evs1) := run api p s n in
      let '(b, s2, n2, evs2) := run api (f a) s1 n1 in
      (b, s2, n2, evs1 ++ evs2).
Proof.
  change (p ≫= f) with (bind p f).
  induction p as [a|k IH|g k IH|t k IH|R r k IH]; intros s n; cbn [bind run].
  - destruct (run api (f a) s n) as [[[b s2] n2] evs2]. done.
  - apply IH.
  - apply IH.
  - rewrite IH. destruct (run api k s n) as [[[a s1] n1] evs1].
    destruct (run api (f a) s1 n1) as [[[b s2] n2] evs2]. done.
  - rewrite IH.
    destruct (run api (k (api n R r)) s (S n)) as [[[a s1] n1] evs1].
    destruct (run api (f a) s1 n1) as [[[b s2] n2] evs2]. done.
Qed.

(** Case analysis on how the API calls of a run settle and on the
    fields of their responses that the handlers branch on. *)
Ltac settle :=
  repeat (cbn;
    match goal with
    | |- context [match ?api ?k ?R ?r with
                  | Fulfilled _ => _ | Rejected _ => _ end] =>
        destruct (api k R r) eqn:?
    | |- context [match JS.or_undefined (list_error ?x) with
                  | Some _ => _ | None => _ end] =>
        destruct (JS.or_undefined (list_error x)) eqn:?
    | |- context [if success ?r then _ else _] =>
        destruct (success r) eqn:?
    end).

(** The request [fetchVehicles] sends for given arguments. *)
Lemma fetchVehicles_request (api : Api)
    (serialNumber dealerCode : option string) (s : Dashboard) (n : nat) :
  exists s' toasts,
    run api (fetchVehicles serialNumber dealerCode) s n
    = (tt, s', S n,
       Called (getVehicles (JS.or_undefined (JS.trim <$> serialNumber))
                           (JS.or_undefined (JS.trim <$> dealerCode)))
              (Setters.isLoading_ true s)
       :: (Toasted <$> toasts)) /\
    isLoading s' = false /\
    searchSerialNumber s' = searchSerialNumber s /\
    searchDealerCode s' = searchDealerCode s /\
    searchMode s' = searchMode s /\
    debouncedSerialNumber s' = debouncedSerialNumber s /\
    debouncedDealerCode s' = debouncedDealerCode s /\
    editingVehicle s' = editingVehicle s /\
    deletingVehicle s' = deletingVehicle s /\
    isSubmitting s' = isSubmitting s.
Proof.
  unfold fetchVehicles. cbn.
  destruct (api n _ _) as [response|e]; cbn.
  - destruct (JS.or_undefined (list_error response)) as [msg|]; cbn.
    + eexists _, [_]. split; [reflexivity|]. cbn. repeat split.
    + eexists _, []. split; [reflexivity|]. cbn. repeat split.
  - eexists _, [_]. split; [reflexivity|]. cbn. repeat split.
Qed.

(** C3. [fetchVehicles] sends its list request with [isLoading] already
    set (and nothing else changed). When the response carries no error the
    list becomes the list of the response, whole, and the page becomes 1,
    with no toast; when the response carries an error, or the call throws,
    the list becomes empty, the error is shown as a toast and the page is
    left as it was. However the call settles, [isLoading] is false at the
    end. *)
Theorem fetchVehicles_settles (api : Api)
    (serialNumber dealerCode : option string) (s : Dashboard) (n : nat) :
  let request := getVehicles (JS.or_undefined (JS.trim <$> serialNumber))
                             (JS.or_undefined (JS.trim <$> dealerCode)) in
  let sent := Called request (Setters.isLoading_ true s) in
  let result := run api (fetchVehicles serialNumber dealerCode) s n in
  let s' := finalState result in
  eventsOf result !! 0%nat = Some sent /\
  isLoading (Setters.isLoading_ true s) = true /\
  isLoading s' = false /\
  (forall response,
     api n _ request = Fulfilled response ->
     JS.truthy (list_error response) = false ->
     vehicles s' = default [] (list_vehicles response) /\
     currentPage s' = 1%Z /\
     eventsOf result = [sent]) /\
  (forall response,
     api n _ request = Fulfilled response ->
     JS.truthy (list_error response) = true ->
     vehicles s' = [] /\
     currentPage s' = currentPage s /\
     exists e, list_error response = Some e /\
       eventsOf result = [sent; Toasted (toast_error e)]) /\
  (forall e,
     api n _ request = Rejected e ->
     vehicles s' = [] /\
     currentPage s' = currentPage s /\
     eventsOf result
     = [sent;
        Toasted (toast_error (thrown_message e "Failed to fetch vehicles"))]).
Proof.
  intros request sent result s'. subst s' result sent.
  unfold fetchVehicles, finalState, eventsOf. cbn. fold request.
  destruct (api n _ request) as [response|e]; cbn;
    [unfold JS.or_undefined;
     destruct (JS.truthy (list_error response)) eqn:Htruthy;
     [destruct (list_error response) as [msg|] eqn:Herr; [|done]|]|];
    cbn; split_and!; try done; intros; simplify_eq; cbn;
    split_and?; try done; try congruence.
  all: eauto.
Qed.

Lemma fetchVehicles_settles_witness :
  (let s' := finalState (run Samples.accepting
                           (fetchVehicles (Some " ABC ") None)
                           Samples.searching 0) in
   vehicles s' = Samples.twelve /\ currentPage s' = 1%Z) /\
  (let s' := finalState (run Samples.failing
                           (fetchVehicles (Some " ABC ") None)
                           Samples.searching 0) in
   vehicles s' = [] /\ currentPage s' = 2%Z) /\
  (let s' := finalState (run Samples.offline
                           (fetchVehicles (Some " ABC ") None)
                           Samples.searching 0) in
   vehicles s' = [] /\ currentPage s' = 2%Z).
Proof.
  split; [|split].
  - pose proof (fetchVehicles_settles Samples.accepting (Some " ABC ") None
                  Samples.searching 0) as (_ & _ & _ & Hok & _ & _).
    destruct (Hok _ eq_refl eq_refl) as (Hlist & Hpage & _).
    split; [exact Hlist|exact Hpage].
  - pose proof (fetchVehicles_settles Samples.failing (Some " ABC ") None
                  Samples.searching 0) as (_ & _ & _ & _ & Herr & _).
    destruct (Herr _ eq_refl eq_refl) as (Hlist & Hpage & _).
    split; [exact Hlist|exact Hpage].
  - pose proof (fetchVehicles_settles Samples.offline (Some " ABC ") None
                  Samples.searching 0) as (_ & _ & _ & _ & _ & Hthrown).
    destruct (Hthrown _ eq_refl) as (Hlist & Hpage & _).
    split; [exact Hlist|exact Hpage].
Defined.

Lemma with_status_restores (v : Vehicle) (st : option string) :
  with_status (with_status v st) (status v) = v.
Proof. destruct v. reflexivity. Qed.

(** The patch touches exactly the entries with the id of the target, and
    the rollback gives exactly those the status of the target. *)
Lemma patchSold_lookup (vehicle : Vehicle) (l : list Vehicle) (j : nat) :
  patchSold vehicle l !! j
  = (fun v => if decide (id v = id vehicle) then with_status v sold else v)
      <$> l !! j.
Proof. apply list_lookup_fmap. Qed.

Lemma rollback_lookup (vehicle : Vehicle) (l : list Vehicle) (j : nat) :
  revertSold vehicle (patchSold vehicle l) !! j
  = (fun v => if decide (id v = id vehicle)
              then with_status v (status vehicle) else v) <$> l !! j.
Proof.
  unfold revertSold, patchSold. rewrite !list_lookup_fmap.
  destruct (l !! j) as [v|]; [|done]. cbn. f_equal.
  destruct (decide (id v = id vehicle)) as [Heq|Hne]; cbn.
  - rewrite decide_True by done. destruct v; reflexivity.
  - rewrite decide_False by done. done.
Qed.

Lemma rollback_restores_entry (vehicle : Vehicle) (l : list Vehicle) (i : nat) :
  l !! i = Some vehicle ->
  revertSold vehicle (patchSold vehicle l) !! i = Some vehicle.
Proof.
  intros Hi. rewrite rollback_lookup, Hi. cbn.
  rewrite decide_True by done. f_equal. destruct vehicle; reflexivity.
Qed.

(** With ids that identify the entries, the rollback restores the whole
    list. *)
Lemma rollback_restores_list (vehicle : Vehicle) (l : list Vehicle) (i : nat) :
  NoDup (id <$> l) ->
  l !! i = Some vehicle ->
  revertSold vehicle (patchSold vehicle l) = l.
Proof.
  intros Hnodup Hi. apply list_eq. intros j.
  rewrite rollback_lookup.
  destruct (l !! j) as [v|] eqn:Hj; [|done]. cbn. f_equal.
  destruct (decide (id v = id vehicle)) as [Heq|Hne]; [|done].
  assert (j = i) as ->.
  { apply (NoDup_lookup (id <$> l) j i (id vehicle) Hnodup);
      rewrite list_lookup_fmap; [rewrite Hj|rewrite Hi]; cbn; congruence. }
  assert (v = vehicle) as -> by congruence.
  destruct vehicle; reflexivity.
Qed.

#[local] Arguments patchSold : simpl never.
#[local] Arguments revertSold : simpl never.

(** C1. [handleMarkAsSold], called with an entry of the list: the request
    leaves with that entry already "sold" in the list; when the response
    has [success = false], or the call throws, the entry is again exactly
    what it was (an absent status absent again) and an error toast is
    raised. *)
Theorem markAsSold_optimistic_then_rolled_back (api : Api) (s : Dashboard)
    (n : nat) (vehicle : Vehicle) (i : nat) :
  vehicles s !! i = Some vehicle ->
  let request := markAsSold (id vehicle) in
  let patched := Setters.vehicles_ (patchSold vehicle) s in
  let result := run api (handleMarkAsSold vehicle) s n in
  let s' := finalState result in
  eventsOf result !! 0%nat = Some (Called request patched) /\
  vehicles patched !! i = Some (with_status vehicle sold) /\
  status <$> vehicles patched !! i = Some (Some "sold") /\
  (forall response,
     api n _ request = Fulfilled response ->
     success response = false ->
     vehicles s' !! i = Some vehicle /\
     status <$> vehicles s' !! i = Some (status vehicle) /\
     eventsOf result
     = [Called request patched;
        Toasted (toast_error (JS.or_default (error response)
                                "Failed to mark vehicle as sold"))]) /\
  (forall e,
     api n _ request = Rejected e ->
     vehicles s' !! i = Some vehicle /\
     status <$> vehicles s' !! i = Some (status vehicle) /\
     eventsOf result
     = [Called request patched;
        Toasted (toast_error
                   (thrown_message e "An unexpected error occurred"))]).
Proof.
  intros Hi request patched result s'.
  assert (vehicles patched !! i = Some (with_status vehicle sold)) as Hpatched.
  { subst patched. cbn. rewrite patchSold_lookup, Hi. cbn.
    by rewrite decide_True. }
  pose proof (rollback_restores_entry vehicle (vehicles s) i Hi) as Hback.
  subst s' result patched. unfold handleMarkAsSold, finalState, eventsOf.
  cbn. fold request.
  cbn in Hpatched.
  settle; cbn; split_and!; try done; intros; simplify_eq; cbn;
    rewrite ?Hpatched, ?Hback; try done; congruence.
Qed.

Lemma markAsSold_optimistic_then_rolled_back_witness :
  status <$> vehicles (finalState
               (run Samples.refusing (handleMarkAsSold (Samples.sample 7 None))
                  Samples.searching 0)) !! 7%nat = Some None /\
  status <$> vehicles (finalState
               (run Samples.offline (handleMarkAsSold (Samples.sample 7 None))
                  Samples.searching 0)) !! 7%nat = Some None.
Proof.
  split.
  - pose proof (markAsSold_optimistic_then_rolled_back Samples.refusing
                  Samples.searching 0 (Samples.sample 7 None) 7 eq_refl)
      as (_ & _ & _ & Hfail & _).
    destruct (Hfail _ eq_refl eq_refl) as (_ & Hstatus & _). exact Hstatus.
  - pose proof (markAsSold_optimistic_then_rolled_back Samples.offline
                  Samples.searching 0 (Samples.sample 7 None) 7 eq_refl)
      as (_ & _ & _ & _ & Hthrown).
    destruct (Hthrown _ eq_refl) as (_ & Hstatus & _). exact Hstatus.
Defined.

(** C8. A confirmed delete calls the API with the id of the pending
    target, the list still untouched. On success the pending target is
    cleared and [fetchVehicles()] runs from there. When the response has
    [success = false], or the call throws, the state is exactly what it
    was, so the target is still pending and the list is untouched, and an
    error toast is raised. *)
Theorem handleDelete_outcomes (api : Api) (s : Dashboard) (n : nat)
    (target : DeleteTarget) :
  deletingVehicle s = Some target ->
  let request := deleteVehicle (target_id target) in
  let result := run api handleDelete s n in
  let s' := finalState result in
  eventsOf result !! 0%nat = Some (Called request s) /\
  (forall response,
     api n _ request = Fulfilled response ->
     success response = true ->
     let cleared := Setters.deletingVehicle_ None s in
     let refetch := run api (fetchVehicles None None) cleared (S n) in
     deletingVehicle s' = None /\
     s' = finalState refetch /\
     eventsOf refetch !! 0%nat
     = Some (Called (getVehicles None None)
               (Setters.isLoading_ true cleared)) /\
     eventsOf result
     = Called request s
       :: Toasted (toast_success
                     (JS.or_default (message response)
                        "Vehicle deleted successfully"))
       :: eventsOf refetch) /\
  (forall response,
     api n _ request = Fulfilled response ->
     success response = false ->
     s' = s /\
     deletingVehicle s' = Some target /\
     vehicles s' = vehicles s /\
     eventsOf result
     = [Called request s;
        Toasted (toast_error (JS.or_default (error response)
                                "Failed to delete vehicle"))]) /\
  (forall e,
     api n _ request = Rejected e ->
     s' = s /\
     deletingVehicle s' = Some target /\
     vehicles s' = vehicles s /\
     eventsOf result
     = [Called request s;
        Toasted (toast_error
                   (thrown_message e "An unexpected error occurred"))]).
Proof.
  intros Htarget request result s'. subst s' result request.
  unfold handleDelete, finalState, eventsOf. cbn. rewrite Htarget.
  settle; cbn; split_and!; try done; intros; simplify_eq; cbn;
    try done; try congruence.
  all: settle; cbn; split_and!; try done; congruence.
Qed.

Lemma handleDelete_outcomes_witness :
  deletingVehicle (finalState (run Samples.accepting handleDelete
                                 Samples.searching 0)) = None /\
  deletingVehicle (finalState (run Samples.refusing handleDelete
                                 Samples.searching 0))
  = Some (mkDeleteTarget 7 "SN") /\
  finalState (run Samples.offline handleDelete Samples.searching 0)
  = Samples.searching.
Proof.
  split; [|split].
  - pose proof (handleDelete_outcomes Samples.accepting Samples.searching 0
                  _ eq_refl) as (_ & Hok & _).
    destruct (Hok _ eq_refl eq_refl) as (Hcleared & _). exact Hcleared.
  - pose proof (handleDelete_outcomes Samples.refusing Samples.searching 0
                  _ eq_refl) as (_ & _ & Hfail & _).
    destruct (Hfail _ eq_refl eq_refl) as (_ & Hkept & _). exact Hkept.
  - pose proof (handleDelete_outcomes Samples.offline Samples.searching 0
                  _ eq_refl) as (_ & _ & _ & Hthrown).
    destruct (Hthrown _ eq_refl) as (Hsame & _). exact Hsame.
Defined.

(** C10. Whatever the state, and so whatever the search inputs hold: the
    list request sent after a successful delete, after a successful
    mark-as-sold, by [handleEditSave], and after a successful submit of
    the edit form, is the one request of the run and carries neither
    filter. *)
Theorem reconciling_refetch_is_unfiltered (api : Api) (s : Dashboard)
    (n : nat) :
  (forall target response,
     deletingVehicle s = Some target ->
     api n _ (deleteVehicle (target_id target)) = Fulfilled response ->
     success response = true ->
     listRequests (eventsOf (run api handleDelete s n)) = [(None, None)]) /\
  (forall vehicle response,
     api n _ (markAsSold (id vehicle)) = Fulfilled response ->
     success response = true ->
     listRequests (eventsOf (run api (handleMarkAsSold vehicle) s n))
     = [(None, None)]) /\
  listRequests (eventsOf (run api handleEditSave s n)) = [(None, None)] /\
  (forall vehicle data response,
     isSubmitting s = false ->
     api n _ (updateVehicle (id vehicle) data) = Fulfilled response ->
     success response = true ->
     listRequests
       (eventsOf (run api (onSubmit vehicle handleEditSave data) s n))
     = [(None, None)]).
Proof.
  unfold eventsOf. split_and!.
  - intros target response Htarget Hout Hok.
    unfold handleDelete. cbn. rewrite Htarget. cbn. rewrite Hout. cbn.
    rewrite Hok. settle; done.
  - intros vehicle response Hout Hok.
    unfold handleMarkAsSold. cbn. rewrite Hout. cbn. rewrite Hok.
    settle; done.
  - unfold handleEditSave. settle; done.
  - intros vehicle data response Hidle Hout Hok.
    unfold onSubmit. cbn. rewrite Hidle. cbn. rewrite Hout. cbn.
    rewrite Hok. settle; done.
Qed.

Lemma reconciling_refetch_is_unfiltered_witness :
  searchSerialNumber Samples.searching = "ABC" /\
  listRequests (eventsOf (run Samples.accepting handleDelete
                            Samples.searching 0)) = [(None, None)] /\
  listRequests (eventsOf (run Samples.accepting
                            (handleMarkAsSold (Samples.sample 7 None))
                            Samples.searching 0)) = [(None, None)] /\
  listRequests (eventsOf (run Samples.accepting
                            (onSubmit (Samples.sample 7 None) handleEditSave
                               Samples.edited)
                            Samples.searching 0)) = [(None, None)].
Proof.
  pose proof (reconciling_refetch_is_unfiltered Samples.accepting
                Samples.searching 0) as (Hdelete & Hsold & _ & Hsubmit).
  split; [reflexivity|]. split; [|split].
  - exact (Hdelete _ _ eq_refl eq_refl eq_refl).
  - exact (Hsold (Samples.sample 7 None) _ eq_refl eq_refl).
  - exact (Hsubmit (Samples.sample 7 None) Samples.edited _
             eq_refl eq_refl eq_refl).
Defined.

Lemma is_sold_spec (vehicle : Vehicle) :
  is_sold vehicle = true <-> status vehicle = Some "sold".
Proof.
  unfold is_sold. destruct (status vehicle) as [st|]; [|done].
  rewrite String.eqb_eq. split; congruence.
Qed.

(** C9. The menu of a row has the items Edit, Mark as Sold and Delete, in
    this order. The buttons of Edit and Mark as Sold are disabled exactly
    when the status of the vehicle is "sold", and a click on them then
    does nothing; the Delete button is never disabled and a click on it
    always runs its handler. *)
Theorem sold_disables_edit_and_mark_as_sold (vehicle : Vehicle) :
  exists edit markSold delete,
    actionItems vehicle = [edit; markSold; delete] /\
    label edit = "Edit" /\
    label markSold = "Mark as Sold" /\
    label delete = "Delete" /\
    (buttonDisabled edit = true <-> status vehicle = Some "sold") /\
    (buttonDisabled markSold = true <-> status vehicle = Some "sold") /\
    buttonDisabled delete = false /\
    handleItemClick edit
    = (if buttonDisabled edit then Ret tt
       else setState (Setters.editingVehicle_ (Some vehicle))) /\
    handleItemClick markSold
    = (if buttonDisabled markSold then Ret tt
       else handleMarkAsSold vehicle) /\
    handleItemClick delete
    = setState (Setters.deletingVehicle_
                  (Some {| target_id := id vehicle;
                           target_serialNumber := serial_number vehicle |})).
Proof.
  unfold actionItems. eexists _, _, _. split; [reflexivity|].
  unfold handleItemClick, buttonDisabled. cbn [label disabled onClick default].
  pose proof (is_sold_spec vehicle).
  split_and!; try done; by destruct (is_sold vehicle).
Qed.

End HandlerFacts.

(** ** The search coordinator *)

Module SearchFacts.
Import HandlerFacts.

Lemma unfiltered_follows_mode (s : Dashboard) :
  filtersFollowMode None None s.
Proof. unfold filtersFollowMode. destruct (searchMode s); auto. Qed.

Lemma or_undefined_trimmed (q : string) :
  JS.or_undefined (Some (JS.trim q)) = None \/
  JS.or_undefined (Some (JS.trim q)) = Some (JS.trim q) /\
  JS.or_undefined (Some (JS.trim q)) <> Some "".
Proof.
  unfold JS.or_undefined, JS.truthy.
  destruct (String.eqb_spec (JS.trim q) ""); cbn; [auto|].
  right. split; congruence.
Qed.

Create HintDb follows.
#[local] Hint Resolve unfiltered_follows_mode : follows.
#[local] Hint Constructors Forall : follows.
#[local] Hint Extern 1 (fetchFollowsMode _) => exact I : follows.
#[local] Hint Extern 1 (fetchFollowsMode (Called (getVehicles None None) _)) =>
  apply unfiltered_follows_mode : follows.

Ltac follows :=
  intros api s n; unfold eventsOf; settle; cbn; auto 10 with follows.

Lemma setState_follows (f : Dashboard -> Dashboard) :
  followsMode (setState f).
Proof. follows. Qed.

Lemma setMode_follows (mode : VehicleSearchMode) : followsMode (setMode mode).
Proof. destruct mode; follows. Qed.

Lemma handleClearSearch_follows : followsMode handleClearSearch.
Proof. follows. Qed.

Lemma handleDelete_follows : followsMode handleDelete.
Proof.
  intros api s n. unfold eventsOf, handleDelete. cbn.
  destruct (deletingVehicle s); settle; cbn; auto 10 with follows.
Qed.

Lemma handleMarkAsSold_follows (vehicle : Vehicle) :
  followsMode (handleMarkAsSold vehicle).
Proof. follows. Qed.

Lemma handleEditCancel_follows : followsMode handleEditCancel.
Proof. follows. Qed.

Lemma onSubmit_follows (vehicle : Vehicle) (data : VehicleFormData) :
  followsMode (onSubmit vehicle handleEditSave data).
Proof.
  intros api s n. unfold eventsOf, onSubmit. cbn.
  destruct (isSubmitting s); settle; cbn; auto 10 with follows.
Qed.

Lemma clickNext_follows :
  followsMode
    (GetState (fun s =>
       setState (Setters.currentPage_ (Pagination.clickNext (vehicles s))))).
Proof. follows. Qed.

(** The auto-search effect sends the debounced query of the active mode,
    trimmed, or no filter at all when that is empty. *)
Lemma autoSearch_follows : followsMode autoSearch.
Proof.
  intros api s n. unfold eventsOf, autoSearch, autoSearchFilters. cbn.
  destruct (searchMode s) eqn:Hmode; settle; cbn;
    (apply Forall_cons; split; [|auto with follows]);
    cbn; unfold filtersFollowMode; cbn; rewrite Hmode;
    (split; [done|]); apply or_undefined_trimmed.
Qed.

Lemma step_handler_follows (a : Action) :
  match a with
  | Elapse _ => True
  | SetMode mode => followsMode (setMode mode)
  | SetSerialQuery q => followsMode (setState (Setters.searchSerialNumber_ q))
  | SetDealerQuery q => followsMode (setState (Setters.searchDealerCode_ q))
  | ClearSearch => followsMode handleClearSearch
  | ChooseDelete target =>
      followsMode (setState (Setters.deletingVehicle_ (Some target)))
  | CancelDelete => followsMode (setState (Setters.deletingVehicle_ None))
  | ConfirmDelete => followsMode handleDelete
  | ClickMarkAsSold vehicle => followsMode (handleMarkAsSold vehicle)
  | ChooseEdit vehicle =>
      followsMode (setState (Setters.editingVehicle_ (Some vehicle)))
  | CancelEdit => followsMode handleEditCancel
  | SubmitEdit vehicle data =>
      followsMode (onSubmit vehicle handleEditSave data)
  | ClickPrevious =>
      followsMode (setState (Setters.currentPage_ Pagination.clickPrevious))
  | ClickNext =>
      followsMode
        (GetState (fun s =>
           setState (Setters.currentPage_
                       (Pagination.clickNext (vehicles s)))))
  end.
Proof.
  destruct a;
    auto using setState_follows, setMode_follows, handleClearSearch_follows,
      handleDelete_follows, handleMarkAsSold_follows,
      handleEditCancel_follows, onSubmit_follows, clickNext_follows.
Qed.

Section Histories.
Variable api : Api.

Lemma render_history (m : Machine) :
  Forall fetchFollowsMode (history m) ->
  Forall fetchFollowsMode (history (render api m)).
Proof.
  intros Hm. unfold render.
  destruct (decide _) as [_|_]; [done|].
  match goal with
  | |- context [run api autoSearch ?s ?n] =>
      pose proof (autoSearch_follows api s n) as Hrun;
      destruct (run api autoSearch s n) as [[[[] s2] n2] evs]
  end.
  cbn in *. apply Forall_app. done.
Qed.

Lemma dispatch_history (p : Prog unit) (m : Machine) :
  followsMode p ->
  Forall fetchFollowsMode (history m) ->
  Forall fetchFollowsMode (history (dispatch api p m)).
Proof.
  intros Hp Hm. unfold dispatch.
  pose proof (Hp api (dash m) (apiCalls m)) as Hrun.
  destruct (run api p (dash m) (apiCalls m)) as [[[[] s] n] evs].
  apply render_history. cbn in *. apply Forall_app. done.
Qed.

Lemma fireDue_history (target : Z) (m : Machine) :
  Forall fetchFollowsMode (history m) ->
  Forall fetchFollowsMode (history (fireDue api target m)).
Proof.
  intros Hm. unfold fireDue.
  destruct (nextDue (dash m) target) as [[[[] t] v]|];
    [apply render_history..|]; done.
Qed.

Lemma step_history (a : Action) (m : Machine) :
  Forall fetchFollowsMode (history m) ->
  Forall fetchFollowsMode (history (step api a m)).
Proof.
  intros Hm. pose proof (step_handler_follows a) as Ha.
  destruct a; cbn [step]; try (by apply dispatch_history).
  unfold elapse. cbn [history]. by do 2 apply fireDue_history.
Qed.

Lemma steps_history (actions : list Action) :
  forall m,
    Forall fetchFollowsMode (history m) ->
    Forall fetchFollowsMode (history (steps api actions m)).
Proof.
  induction actions as [|a actions IH]; intros m Hm; [done|].
  cbn. apply IH. by apply step_history.
Qed.

Lemma mounted_history : Forall fetchFollowsMode (history (mounted api)).
Proof. apply render_history. constructor. Qed.

(** A render leaves the raw queries and the mode alone. *)
Lemma render_keeps_search (m : Machine) :
  searchMode (dash (render api m)) = searchMode (dash m) /\
  searchSerialNumber (dash (render api m)) = searchSerialNumber (dash m) /\
  searchDealerCode (dash (render api m)) = searchDealerCode (dash m).
Proof.
  unfold render. destruct (decide _) as [_|_]; [done|].
  unfold autoSearch. cbn [run].
  destruct (autoSearchFilters _) as [serialFilter dealerFilter].
  match goal with
  | |- context [run api (fetchVehicles ?a ?b) ?s ?n] =>
      destruct (fetchVehicles_request api a b s n)
        as (s' & toasts & -> & _ & Hs & Hd & Hmode & _)
  end.
  cbn in *. done.
Qed.
End Histories.

Lemma follows_mode_exclusive (evs : list Event) :
  Forall fetchFollowsMode evs ->
  Forall (fun filters => filters.1 = None \/ filters.2 = None)
    (listRequests evs).
Proof.
  induction 1 as [|ev evs Hev _ IH]; [constructor|].
  unfold listRequests in *. destruct ev as [R r s|t]; cbn; [|done].
  destruct r; cbn; try done.
  constructor; [|done]. cbn in *. unfold filtersFollowMode in Hev.
  destruct (searchMode s); tauto.
Qed.

(** C2. From the mounted dashboard, after any sequence of actions (mode
    switches, edits of either query, clearing, time passing, deletes,
    mark-as-sold, edits, paging): a mode switch leaves the new mode active
    and the query of the other mode empty; and every list request ever
    sent carried [undefined] for the filter of the mode that was not
    active, and for the active mode either [undefined] or the non-empty
    trimmed debounced query of that mode. So no request has both
    filters. *)
Theorem search_filters_are_exclusive (api : Api) (actions : list Action) :
  let m := steps api actions (mounted api) in
  (forall mode,
     let m' := step api (SetMode mode) m in
     searchMode (dash m') = mode /\ inactiveQuery (dash m') = "") /\
  Forall fetchFollowsMode (history m) /\
  Forall (fun filters => filters.1 = None \/ filters.2 = None)
    (listRequests (history m)).
Proof.
  intros m.
  assert (Forall fetchFollowsMode (history m)) as Hm
    by apply steps_history, mounted_history.
  split; [|split; [done|by apply follows_mode_exclusive]].
  intros mode m'. subst m'. cbn [step]. unfold dispatch, inactiveQuery.
  destruct mode; cbn;
    match goal with
    | |- context [render api ?x] =>
        destruct (render_keeps_search api x) as (-> & -> & ->)
    end; done.
Qed.

(** Scenario: in serial-number mode the user types "ABC" and, 200 ms later,
    "ABC123". Up to 499 ms after the second keystroke only the request of
    the first render has been sent; one millisecond later exactly one more
    has, with the serial number "ABC123" and no dealer code. *)
Example typing_fires_one_fetch :
  let typed :=
    steps Samples.accepting
      [Elapse 1000; SetSerialQuery "ABC"; Elapse 200; SetSerialQuery "ABC123"]
      (mounted Samples.accepting) in
  listRequests (history (step Samples.accepting (Elapse 499) typed))
  = [(None, None)] /\
  listRequests (history (step Samples.accepting (Elapse 500) typed))
  = [(None, None); (Some "ABC123", None)] /\
  now (step Samples.accepting (Elapse 500) typed) = 1700%Z.
Proof. vm_compute. done. Qed.

(** Scenario: the delete of vehicle 7 is confirmed. When the server accepts,
    no target is pending afterwards and the list has been fetched again
    without filters; when it refuses, vehicle 7 is still pending. *)
Example delete_confirmed_for_vehicle_7 :
  let asked api :=
    steps api [ChooseDelete (mkDeleteTarget 7 "SN"); ConfirmDelete]
      (mounted api) in
  deletingVehicle (dash (asked Samples.accepting)) = None /\
  listRequests (history (asked Samples.accepting))
  = [(None, None); (None, None)] /\
  deletingVehicle (dash (asked Samples.refusing))
  = Some (mkDeleteTarget 7 "SN") /\
  listRequests (history (asked Samples.refusing)) = [(None, None)].
Proof. vm_compute. done. Qed.

End SearchFacts.

(** * Further properties *)

(** ** Pages and rows *)

Module PaginationMore.
Import Pagination PaginationFacts.
Local Open Scope Z_scope.

(** Row [k] of page [p] is entry [5 * (p - 1) + k] of the list, for the
    rows 0 to 4. *)
Lemma page_row_lookup (vehicles : list Vehicle) (p : Z) (k : nat) :
  1 <= p ->
  currentVehicles vehicles p !! k
  = if decide (k < 5)%nat then vehicles !! (5 * Z.to_nat (p - 1) + k)%nat
    else None.
Proof.
  intros Hp. replace p with (Z.of_nat (Z.to_nat (p - 1)) + 1) at 1 by lia.
  rewrite currentVehicles_window.
  destruct (decide (k < 5)%nat) as [Hk|Hk].
  - rewrite lookup_take_lt by done. apply lookup_drop.
  - apply lookup_take_ge. lia.
Qed.

(** X1. Every entry of the list is shown on exactly one page and row: the
    entry at index [i] is row [i mod 5] of page [i / 5 + 1], which is one of
    the pages [1 .. totalPages]; and a row [k] of a page [p >= 1] holds an
    entry exactly when [k < 5] and the list has an entry at index
    [5 * (p - 1) + k], which is then that entry. *)
Theorem entry_is_on_one_page (vehicles : list Vehicle) :
  (forall (i : nat) (v : Vehicle),
     vehicles !! i = Some v ->
     let p := Z.of_nat (i / 5) + 1 in
     1 <= p <= totalPages vehicles /\
     currentVehicles vehicles p !! (i mod 5)%nat = Some v) /\
  (forall (p : Z) (k : nat) (v : Vehicle),
     1 <= p ->
     (currentVehicles vehicles p !! k = Some v <->
      (k < 5)%nat /\ vehicles !! (5 * Z.to_nat (p - 1) + k)%nat = Some v)).
Proof.
  split.
  - intros i v Hi p.
    pose proof (lookup_lt_Some _ _ _ Hi) as Hlt.
    pose proof (totalPages_bounds vehicles) as Hb.
    pose proof (Nat.div_mod_eq i 5) as Hdm.
    pose proof (Nat.mod_upper_bound i 5 ltac:(lia)) as Hm.
    assert (1 <= p <= totalPages vehicles) as Hp.
    { subst p. set (q := (i / 5)%nat) in *. set (r := (i mod 5)%nat) in *.
      clearbody q r. set (tp := totalPages vehicles) in *. clearbody tp.
      lia. }
    split; [done|].
    rewrite page_row_lookup by lia.
    rewrite decide_True by done.
    rewrite <- Hi. f_equal. subst p. lia.
  - intros p k v Hp. rewrite page_row_lookup by done.
    destruct (decide (k < 5)%nat) as [Hk|Hk].
    + split; [intros Hrow; split; done|intros [_ Hrow]; done].
    + split; [done|intros [Hk' _]; done].
Qed.

Lemma entry_is_on_one_page_witness :
  id <$> currentVehicles Samples.twelve 3 !! 1%nat = Some 11.
Proof.
  pose proof (entry_is_on_one_page Samples.twelve) as [Hthere _].
  destruct (Hthere 11%nat (Samples.sample 11 None) eq_refl) as [_ Hrow].
  change (Z.of_nat (11 / 5) + 1) with 3 in Hrow.
  change (11 mod 5)%nat with 1%nat in Hrow.
  rewrite Hrow. reflexivity.
Defined.

Lemma take_same_prefix {A} (l : list A) (n m : nat) :
  (n `min` length l = m `min` length l)%nat -> take n l = take m l.
Proof.
  revert n m. induction l as [|x l IH]; intros n m Hnm.
  - by rewrite !take_nil.
  - destruct n, m; cbn in *; try done; try lia.
    f_equal. apply IH. lia.
Qed.

(** X2. On a page within [1 .. totalPages] the footer "Showing a to b of n"
    is right: [a <= b], the page has [b - a + 1] rows, between 1 and 5 of
    them, and they are the entries with the (1-based) numbers [a] to [b].
    A page after the last one has no rows. *)
Theorem footer_counts_the_rows (vehicles : list Vehicle) (p : Z) :
  (1 <= p <= totalPages vehicles ->
   let a := showingFrom p in
   let b := showingTo vehicles p in
   a <= b /\
   Z.of_nat (length (currentVehicles vehicles p)) = b - a + 1 /\
   1 <= b - a + 1 <= 5 /\
   currentVehicles vehicles p
   = take (Z.to_nat (b - a + 1)) (drop (Z.to_nat (a - 1)) vehicles)) /\
  (totalPages vehicles < p -> currentVehicles vehicles p = []).
Proof.
  pose proof (totalPages_bounds vehicles) as Hb.
  unfold showingFrom, showingTo, endIndex, startIndex, ITEMS_PER_PAGE.
  split.
  - intros Hp. cbn zeta.
    pose proof (page_length vehicles p ltac:(lia)) as Hlen.
    split; [lia|]. split; [lia|]. split; [lia|].
    replace p with (Z.of_nat (Z.to_nat (p - 1)) + 1) at 1 by lia.
    rewrite currentVehicles_window.
    replace (Z.to_nat ((p - 1) * 5 + 1 - 1)) with (5 * Z.to_nat (p - 1))%nat
      by lia.
    apply take_same_prefix. rewrite length_drop. lia.
  - intros Hp. apply length_zero_iff_nil.
    pose proof (page_length vehicles p ltac:(lia)). lia.
Qed.

Lemma footer_counts_the_rows_witness :
  showingFrom 3 = 11 /\ showingTo Samples.twelve 3 = 12 /\
  length (currentVehicles Samples.twelve 3) = 2%nat /\
  currentVehicles Samples.twelve 4 = [].
Proof.
  pose proof (footer_counts_the_rows Samples.twelve 3) as [Hin _].
  pose proof (footer_counts_the_rows Samples.twelve 4) as [_ Hout].
  assert (1 <= 3 <= totalPages Samples.twelve) as Hp
    by (vm_compute; split; discriminate).
  destruct (Hin Hp) as (_ & Hrows & _).
  split; [reflexivity|]. split; [reflexivity|].
  split; [|apply Hout; reflexivity].
  change (showingTo Samples.twelve 3 - showingFrom 3 + 1) with 2 in Hrows.
  lia.
Defined.

(** X3. Next and Previous undo each other away from the ends: on a page
    before the last, Next then Previous comes back to it, and on a page
    after the first, Previous then Next does; this holds for the updaters
    and for the clicks on the buttons. *)
Theorem next_and_previous_are_inverse (vehicles : list Vehicle) (p : Z) :
  (1 <= p < totalPages vehicles ->
   previousPage (nextPage vehicles p) = p /\
   clickPrevious (clickNext vehicles p) = p) /\
  (1 < p <= totalPages vehicles ->
   nextPage vehicles (previousPage p) = p /\
   clickNext vehicles (clickPrevious p) = p).
Proof.
  unfold clickPrevious, clickNext, previousDisabled, nextDisabled,
    previousPage, nextPage.
  split; intros Hp.
  - destruct (Z.eqb_spec p (totalPages vehicles)); [lia|].
    destruct (Z.eqb_spec (Z.min (totalPages vehicles) (p + 1)) 1); lia.
  - destruct (Z.eqb_spec p 1); [lia|].
    destruct (Z.eqb_spec (Z.max 1 (p - 1)) (totalPages vehicles)); lia.
Qed.

Lemma next_and_previous_are_inverse_witness :
  clickPrevious (clickNext Samples.twelve 2) = 2 /\
  clickNext Samples.twelve (clickPrevious 2) = 2.
Proof.
  pose proof (next_and_previous_are_inverse Samples.twelve 2)
    as [Hnext Hprev].
  assert (totalPages Samples.twelve = 3) as Htp by reflexivity.
  split; [apply Hnext|apply Hprev]; rewrite Htp; lia.
Defined.

(** X4. The dashboard always renders exactly one of four things: the edit
    form while a vehicle is being edited; otherwise the loading notice
    while loading, the empty notice when the list is empty, and the table
    when it is not. So the table is never shown together with the empty or
    the loading notice, nothing is shown behind the edit form, and the
    pagination bar never appears without the table. *)
Theorem one_section_is_shown (editingVehicle : option Vehicle)
    (isLoading : bool) (vehicles : list Vehicle) :
  let form := showsEditForm editingVehicle in
  let loading := showsLoading editingVehicle isLoading in
  let empty := showsEmpty editingVehicle isLoading vehicles in
  let table := showsTable editingVehicle isLoading vehicles in
  (Nat.b2n form + Nat.b2n loading + Nat.b2n empty + Nat.b2n table = 1)%nat /\
  (form = true <-> editingVehicle <> None) /\
  (loading = true <-> editingVehicle = None /\ isLoading = true) /\
  (empty = true <->
   editingVehicle = None /\ isLoading = false /\ vehicles = []) /\
  (table = true <->
   editingVehicle = None /\ isLoading = false /\ vehicles <> []) /\
  (showsPagination editingVehicle isLoading vehicles = true -> table = true).
Proof.
  unfold showsLoading, showsEmpty, showsTable, showsPagination, showsEditForm.
  destruct editingVehicle as [e|], isLoading, vehicles as [|v vehicles]; cbn;
    intuition (try done; try lia).
Qed.

Lemma one_section_is_shown_witness :
  showsTable None false Samples.twelve = true /\
  showsTable (Some (Samples.sample 7 None)) false Samples.twelve = false.
Proof.
  pose proof (one_section_is_shown None false Samples.twelve)
    as (_ & _ & _ & _ & _ & Hbar).
  split; [apply Hbar|]; reflexivity.
Defined.

End PaginationMore.

(** ** More on the debounce hook *)

Module DebounceMore.
Import Debounce Tracking.
Local Open Scope Z_scope.

Section Timelines.
Context {T : Type} `{EqDecision T}.
Variable delay : Z.
Implicit Types tr : tracker T.

Lemma rerender_coherent tr (v : T) (now : Z) :
  coherent tr -> coherent (rerender tr v delay now).
Proof.
  intros Htr. unfold rerender. destruct (decide (v = value tr)); done.
Qed.

Lemma rerender_value tr (v : T) (now : Z) :
  value (rerender tr v delay now) = v.
Proof. unfold rerender. destruct (decide (v = value tr)); done. Qed.

Lemma advance_coherent tr (now : Z) :
  coherent tr -> coherent (advance tr now).1.
Proof.
  unfold advance, coherent. destruct (timer tr) as [[due v]|] eqn:Htimer.
  - destruct (due <=? now); cbn; [done|by rewrite Htimer].
  - cbn. by rewrite Htimer.
Qed.

Lemma advance_value tr (now : Z) : value (advance tr now).1 = value tr.
Proof.
  unfold advance. destruct (timer tr) as [[due v]|]; [|done].
  by destruct (due <=? now).
Qed.

Lemma play_coherent (changes : list (Z * T)) :
  forall tr,
    coherent tr ->
    coherent (play tr delay changes).1 /\
    value (play tr delay changes).1
    = (List.last changes (0, value tr)).2.
Proof.
  induction changes as [|[t v] changes IH]; intros tr Htr; [done|].
  cbn [play].
  pose proof (advance_coherent tr t Htr) as Hadv.
  destruct (advance tr t) as [tr1 out1]. cbn in Hadv.
  pose proof (IH (rerender tr1 v delay t) (rerender_coherent _ _ _ Hadv))
    as [Hco Hval].
  destruct (play (rerender tr1 v delay t) delay changes) as [tr2 out2].
  cbn [fst snd] in *. split; [done|].
  rewrite Hval, rerender_value, DebounceFacts.last_cons_default.
  clear. revert v. induction changes as [|c changes IH]; intros v; [done|].
  rewrite !DebounceFacts.last_cons_default. done.
Qed.

(** X5. Whatever the timeline of renders and however long the wait after
    it, a mounted tracker is coherent: its input is the value of the last
    render; a pending timeout was set for exactly that value; and when no
    timeout is pending the delayed value is the input. *)
Theorem tracker_stays_coherent (v0 : T) (t0 : Z) (changes : list (Z * T))
    (horizon : Z) :
  let tr := (play_until (mount v0 delay t0) delay changes horizon).1 in
  value tr = (List.last changes (t0, v0)).2 /\
  (forall due v, timer tr = Some (due, v) -> v = value tr) /\
  (timer tr = None -> debouncedValue tr = value tr).
Proof.
  intros tr. subst tr. unfold play_until.
  pose proof (play_coherent changes (mount v0 delay t0) eq_refl)
    as [Hco Hval].
  destruct (play (mount v0 delay t0) delay changes) as [tr1 out1].
  pose proof (advance_coherent tr1 horizon Hco) as Hadv.
  pose proof (advance_value tr1 horizon) as Hv.
  destruct (advance tr1 horizon) as [tr2 out2]. cbn [fst snd] in *.
  split.
  - rewrite Hv, Hval. clear.
    destruct changes as [|c changes]; [done|].
    by rewrite !DebounceFacts.last_cons_default.
  - unfold coherent in Hadv. destruct (timer tr2) as [[due v]|].
    + split; [by intros ? ? [= <- <-]|done].
    + split; [done|by intros _].
Qed.

Lemma play_until_cons tr (t : Z) (v : T) (rest : list (Z * T))
    (horizon : Z) :
  play_until tr delay ((t, v) :: rest) horizon
  = let '(tr1, out1) := advance tr t in
    let '(tr2, out2) :=
      play_until (rerender tr1 v delay t) delay rest horizon in
    (tr2, out1 ++ out2).
Proof.
  unfold play_until. cbn [play].
  destruct (advance tr t) as [tr1 out1].
  destruct (play (rerender tr1 v delay t) delay rest) as [tr2 out2].
  destruct (advance tr2 horizon) as [tr3 out3].
  by rewrite app_assoc.
Qed.

(** With a timeout pending for the current input, changes that are more
    than [delay] apart each find the previous timeout fired. *)
Lemma play_until_spaced (changes : list (Z * T)) :
  forall t0 tr horizon,
    timer tr = Some (t0 + delay, value tr) ->
    spaced delay t0 (value tr) changes ->
    (List.last changes (t0, value tr)).1 + delay <= horizon ->
    play_until tr delay changes horizon
    = ({| value := (List.last changes (t0, value tr)).2;
          debouncedValue := (List.last changes (t0, value tr)).2;
          timer := None |},
       (t0 + delay, value tr)
       :: ((fun c : Z * T => (c.1 + delay, c.2)) <$> changes)).
Proof.
  induction changes as [|[t v] changes IH];
    intros t0 tr horizon Htimer Hspaced Hhorizon.
  - unfold play_until. cbn [play List.last fst snd] in *.
    unfold advance. rewrite Htimer.
    destruct (Z.leb_spec (t0 + delay) horizon); [done|lia].
  - destruct Hspaced as (Hgap & Hne & Hrest).
    rewrite DebounceFacts.last_cons_default in *.
    rewrite play_until_cons. unfold advance. rewrite Htimer.
    destruct (Z.leb_spec (t0 + delay) t); [|lia].
    unfold rerender. cbn [fire value].
    destruct (decide (v = value tr)) as [?|_]; [done|].
    rewrite (IH t); [done|done|exact Hrest|exact Hhorizon].
Qed.

(** X6. Input changes that are more than [delay] apart are all delivered:
    starting with no timeout due, with every change carrying a value other
    than the previous one, [setDebouncedValue] is called once per change,
    in order, each time [delay] after the change and with its value; in the
    end the delayed value is the last value and no timeout is pending. *)
Theorem spaced_changes_are_all_emitted tr (t1 : Z) (v1 : T)
    (rest : list (Z * T)) (horizon : Z) :
  0 <= delay ->
  settled_at tr t1 ->
  v1 <> value tr ->
  spaced delay t1 v1 rest ->
  (List.last rest (t1, v1)).1 + delay <= horizon ->
  let result := play_until tr delay ((t1, v1) :: rest) horizon in
  result.2 = (fun c : Z * T => (c.1 + delay, c.2)) <$> ((t1, v1) :: rest) /\
  debouncedValue result.1 = (List.last rest (t1, v1)).2 /\
  timer result.1 = None.
Proof.
  intros Hdelay Hsettled Hne Hspaced Hhorizon result. subst result.
  rewrite play_until_cons.
  assert (advance tr t1 = (tr, [])) as ->.
  { unfold advance, settled_at in *.
    destruct (timer tr) as [[due x]|]; [|done].
    destruct (Z.leb_spec due t1); [lia|done]. }
  unfold rerender. destruct (decide (v1 = value tr)) as [?|_]; [done|].
  rewrite (play_until_spaced rest t1); [done|done|exact Hspaced|done].
Qed.

End Timelines.

Lemma tracker_stays_coherent_witness :
  debouncedValue
    (play_until (mount 0 500 0) 500 [(100, 1); (200, 2)] 1000).1 = 2.
Proof.
  pose proof (tracker_stays_coherent 500 0 0 [(100, 1); (200, 2)] 1000)
    as (Hval & _ & Hidle).
  rewrite (Hidle eq_refl). exact Hval.
Defined.

(** Three keystrokes, each after the previous one has been delivered. *)
Lemma spaced_changes_are_all_emitted_witness :
  (play_until (mkTracker "" "" None) 500
     [(0, "A"); (600, "AB"); (1200, "ABC")] 2000).2
  = [(500, "A"); (1100, "AB"); (1700, "ABC")].
Proof.
  pose proof (spaced_changes_are_all_emitted 500 (mkTracker "" "" None)
                0 "A" [(600, "AB"); (1200, "ABC")] 2000) as Hthm.
  apply Hthm; simpl; try lia; done.
Defined.

End DebounceMore.

(** ** White space *)

Module TrimFacts.
Import JS.

Lemma strip_prefix_Some (p l r : list Ascii.ascii) :
  strip_prefix p l = Some r <-> l = p ++ r.
Proof.
  revert l. induction p as [|a p IH]; intros l; cbn.
  - split; congruence.
  - destruct l as [|b l]; [done|].
    destruct (Ascii.eqb_spec a b) as [->|Hne].
    + rewrite IH. split; congruence.
    + split; congruence.
Qed.

Lemma strip_first_Some (ps : list (list Ascii.ascii)) l r :
  strip_first ps l = Some r -> exists p, p ∈ ps /\ l = p ++ r.
Proof.
  induction ps as [|p ps IH]; cbn; [done|].
  destruct (strip_prefix p l) as [r'|] eqn:Hp.
  - intros [= ->]. exists p. split; [left|]. by apply strip_prefix_Some.
  - intros (p' & Hin & ->)%IH. exists p'. split; [by right|done].
Qed.

Lemma strip_first_is_Some (ps : list (list Ascii.ascii)) p r :
  p ∈ ps -> is_Some (strip_first ps (p ++ r)).
Proof.
  induction 1 as [p ps|p p' ps Hin IH]; cbn.
  - assert (strip_prefix p (p ++ r) = Some r) as ->
      by (by apply strip_prefix_Some).
    by eexists.
  - destruct (strip_prefix p' (p ++ r)); [by eexists|done].
Qed.

Lemma strip_all_done (ps : list (list Ascii.ascii)) (fuel : nat) :
  Forall (fun p => p <> []) ps ->
  forall l, length l <= fuel -> strip_first ps (strip_all ps fuel l) = None.
Proof.
  intros Hps. induction fuel as [|fuel IH]; intros l Hlen; cbn.
  - destruct l; [|cbn in Hlen; lia].
    destruct (strip_first ps []) as [r|] eqn:Hr; [|done].
    apply strip_first_Some in Hr as (p & Hin & Heq).
    symmetry in Heq. apply app_eq_nil in Heq as [-> _].
    rewrite Forall_forall in Hps. by destruct (Hps [] Hin).
  - destruct (strip_first ps l) as [r|] eqn:Hr; [|done].
    apply IH. apply strip_first_Some in Hr as (p & Hin & ->).
    rewrite Forall_forall in Hps. specialize (Hps p Hin).
    rewrite length_app in Hlen. destruct p; [done|]. cbn in Hlen. lia.
Qed.

Lemma strip_all_nil (ps : list (list Ascii.ascii)) (fuel : nat) :
  forall l,
    strip_all ps fuel l = [] ->
    exists qs, Forall (fun q => q ∈ ps) qs /\ l = concat qs.
Proof.
  induction fuel as [|fuel IH]; intros l; cbn.
  - intros ->. by exists [].
  - destruct (strip_first ps l) as [r|] eqn:Hr.
    + intros (qs & Hqs & ->)%IH.
      apply strip_first_Some in Hr as (p & Hin & ->).
      exists (p :: qs). split; [by constructor|done].
    + intros ->. by exists [].
Qed.

Lemma prefixFree_spec (ps : list (list Ascii.ascii)) :
  prefixFree ps = true ->
  Forall (fun p => p <> []) ps /\
  (forall p p' r, p ∈ ps -> p' ∈ ps -> JS.strip_prefix p p' = Some r -> r = []).
Proof.
  unfold prefixFree. rewrite forallb_forall. intros Hps. split.
  - apply Forall_forall. intros p Hin%list_elem_of_In.
    specialize (Hps p Hin). apply andb_true_iff in Hps as [Hne _].
    by destruct p.
  - intros p p' r Hin%list_elem_of_In Hin'%list_elem_of_In Hr.
    specialize (Hps p Hin). apply andb_true_iff in Hps as [_ Hall].
    rewrite forallb_forall in Hall. specialize (Hall p' Hin').
    rewrite Hr in Hall. by destruct r.
Qed.

(** In a prefix-free set the sequence a list starts with is determined. *)
Lemma strip_first_exact (ps : list (list Ascii.ascii)) p r :
  prefixFree ps = true -> p ∈ ps -> strip_first ps (p ++ r) = Some r.
Proof.
  intros [_ Hfree]%prefixFree_spec Hin.
  destruct (strip_first_is_Some ps p r Hin) as [r' Hr']. rewrite Hr'.
  apply strip_first_Some in Hr' as (p' & Hin' & Heq).
  assert (p = p') as <-; [|by apply app_inv_head in Heq as ->].
  destruct (decide (length p <= length p')).
  - assert (exists t, p' = p ++ t) as [t ->].
    { exists (drop (length p) p').
      apply (f_equal (take (length p))) in Heq as Htake.
      rewrite take_app_length, take_app_le in Htake by done.
      rewrite <- (take_drop (length p) p') at 1. by f_equal. }
    rewrite (Hfree p (p ++ t) t Hin Hin'); [by rewrite app_nil_r|].
    by apply strip_prefix_Some.
  - assert (exists t, p = p' ++ t) as [t ->].
    { exists (drop (length p') p).
      apply (f_equal (take (length p'))) in Heq as Htake.
      rewrite take_app_length, take_app_le in Htake by lia.
      rewrite <- (take_drop (length p') p) at 1. by f_equal. }
    rewrite (Hfree p' (p' ++ t) t Hin' Hin); [by rewrite app_nil_r|].
    by apply strip_prefix_Some.
Qed.

Lemma strip_all_concat (ps qs : list (list Ascii.ascii)) :
  prefixFree ps = true ->
  Forall (fun q => q ∈ ps) qs ->
  forall fuel,
    length (concat qs) <= fuel -> strip_all ps fuel (concat qs) = [].
Proof.
  intros Hfree Hqs. pose proof (prefixFree_spec ps Hfree) as [Hne _].
  induction Hqs as [|q qs Hq Hqs IH]; intros fuel Hlen.
  - destruct fuel; [done|]. cbn.
    destruct (strip_first ps []) as [r|] eqn:Hr; [|done].
    apply strip_first_Some in Hr as (p & Hin & Heq).
    symmetry in Heq. apply app_eq_nil in Heq as [-> _].
    rewrite Forall_forall in Hne. by destruct (Hne [] Hin).
  - cbn in *. rewrite length_app in Hlen.
    rewrite Forall_forall in Hne. specialize (Hne q Hq).
    destruct fuel as [|fuel]; [destruct q; [done|cbn in Hlen; lia]|].
    cbn. rewrite strip_first_exact by done. apply IH.
    destruct q; [done|cbn in Hlen; lia].
Qed.

Lemma whiteSpace_prefixFree : prefixFree whiteSpace = true.
Proof. by vm_compute. Qed.

(** A string is blank exactly when it is a sequence of white-space code
    points. *)
Lemma blank_spec (q : string) :
  blank q = true <->
  exists ws, Forall (fun w => w ∈ whiteSpace) ws /\
             String.list_ascii_of_string q = concat ws.
Proof.
  unfold blank, trim_start. split.
  - destruct (strip_all _ _ _) eqn:Hstrip; [|done]. intros _.
    by apply strip_all_nil in Hstrip.
  - intros (ws & Hws & ->).
    by rewrite strip_all_concat by (done || apply whiteSpace_prefixFree).
Qed.

Lemma trim_start_stripped (l : list Ascii.ascii) :
  strip_first whiteSpace (trim_start l) = None.
Proof.
  apply strip_all_done; [|done].
  apply (prefixFree_spec _ whiteSpace_prefixFree).
Qed.

(** Stripping from the end a list that starts with none of the sequences
    leaves something, unless the list is empty. *)
Lemma strip_end_nil (ps : list (list Ascii.ascii)) (n : nat)
    (l : list Ascii.ascii) :
  strip_first ps l = None ->
  reverse (strip_all (reverse <$> ps) n (reverse l)) = [] ->
  l = [].
Proof.
  intros Hstart Hend.
  apply (f_equal reverse) in Hend.
  rewrite reverse_involutive, reverse_nil in Hend.
  apply strip_all_nil in Hend as (qs & Hqs & Hl).
  destruct qs as [|q qs _] using rev_ind.
  - apply (f_equal reverse) in Hl.
    by rewrite reverse_involutive in Hl.
  - exfalso. rewrite Forall_app, Forall_singleton in Hqs.
    destruct Hqs as [_ Hq].
    apply list_elem_of_fmap in Hq as (p & -> & Hp).
    rewrite concat_app in Hl. simpl concat in Hl. rewrite app_nil_r in Hl.
    apply (f_equal reverse) in Hl.
    rewrite reverse_involutive, reverse_app, reverse_involutive in Hl.
    subst l.
    destruct (strip_first_is_Some ps p (reverse (concat qs)) Hp)
      as [r Hr]. congruence.
Qed.

Lemma trim_empty_iff_blank (q : string) : JS.trim q = "" <-> blank q = true.
Proof.
  unfold JS.trim, blank. split.
  - intros Hq.
    apply (f_equal String.list_ascii_of_string) in Hq.
    rewrite String.list_ascii_of_string_of_list_ascii in Hq.
    change (String.list_ascii_of_string "") with (@nil Ascii.ascii) in Hq.
    by rewrite (strip_end_nil _ _ _ (trim_start_stripped _) Hq).
  - destruct (trim_start _); [done|done].
Qed.

End TrimFacts.

(** ** More on the handlers *)

Module HandlerMore.
Import HandlerFacts.

#[local] Arguments patchSold : simpl never.
#[local] Arguments revertSold : simpl never.

Lemma vehicles_setter_id (s : Dashboard) (l : list Vehicle) :
  l = vehicles s -> Setters.vehicles_ (fun _ => l) s = s.
Proof. intros ->. by destruct s. Qed.

Lemma run_is_runAmid {A} (api : Api) (p : Prog A) :
  forall s n, run api p s n = runAmid api (fun _ s => s) p s n.
Proof.
  induction p as [a|k IH|g k IH|t k IH|R r k IH]; intros s n; cbn;
    rewrite ?IH; done.
Qed.

Lemma revertSold_lookup (vehicle : Vehicle) (l : list Vehicle) (j : nat) :
  revertSold vehicle l !! j
  = (fun v => if decide (id v = id vehicle)
              then with_status v (status vehicle) else v) <$> l !! j.
Proof. apply list_lookup_fmap. Qed.

(** X7. A failed mark-as-sold (a throw, or an envelope without success)
    rolls back on the list that is current when the response arrives,
    whatever the rest of the application did to the state while the call
    was in flight: that list keeps its length, every entry of it with
    another id stays exactly as it is, and every entry with the id of the
    target gets the status the target had at the click; no other part of
    the state is touched. When the target was an entry of the list, the ids
    of the list are distinct and the list was not changed in between, the
    list is again the one before the click; and when nothing at all was
    changed in between, so is the whole state. *)
Theorem failed_markAsSold_restores_state (api : Api)
    (amid : nat -> Dashboard -> Dashboard) (s : Dashboard) (n : nat)
    (vehicle : Vehicle) :
  unsuccessful (api n _ (markAsSold (id vehicle))) ->
  let patched := Setters.vehicles_ (patchSold vehicle) s in
  let mid := amid n patched in
  let s' := finalState (runAmid api amid (handleMarkAsSold vehicle) s n) in
  s' = Setters.vehicles_ (revertSold vehicle) mid /\
  length (vehicles s') = length (vehicles mid) /\
  (forall j v,
     vehicles mid !! j = Some v ->
     vehicles s' !! j
     = Some (if decide (id v = id vehicle)
             then with_status v (status vehicle) else v)) /\
  (forall i,
     vehicles s !! i = Some vehicle ->
     NoDup (id <$> vehicles s) ->
     (vehicles mid = vehicles patched -> vehicles s' = vehicles s) /\
     (mid = patched -> s' = s)).
Proof.
  intros Hfail patched mid s'.
  assert (s' = Setters.vehicles_ (revertSold vehicle) mid) as ->.
  { subst s' mid patched.
    unfold handleMarkAsSold, finalState, unsuccessful in *. cbn.
    destruct (api n _ _) as [response|e]; cbn; [rewrite Hfail|]; done. }
  split; [done|]. cbn. split; [|split].
  - unfold revertSold. by rewrite length_fmap.
  - intros j v Hj. by rewrite revertSold_lookup, Hj.
  - intros i Hi Hnodup.
    assert (vehicles mid = vehicles patched ->
            revertSold vehicle (vehicles mid) = vehicles s) as Hlist.
    { intros ->. subst patched. cbn.
      by apply (rollback_restores_list vehicle (vehicles s) i). }
    split; [done|].
    intros Hmid. rewrite Hmid. subst patched.
    pose proof (rollback_restores_list vehicle (vehicles s) i Hnodup Hi)
      as Hsame.
    destruct s. unfold Setters.vehicles_. cbn in *. by rewrite Hsame.
Qed.

(** While the call is in flight the user pages on; a second case has
    nothing happen. *)
Lemma failed_markAsSold_restores_state_witness :
  vehicles
    (finalState
       (runAmid Samples.refusing
          (fun _ => Setters.currentPage_ (fun _ => 3%Z))
          (handleMarkAsSold (Samples.sample 7 None)) Samples.searching 0))
  = Samples.twelve /\
  finalState (run Samples.refusing (handleMarkAsSold (Samples.sample 7 None))
                Samples.searching 0) = Samples.searching.
Proof.
  assert (NoDup (id <$> vehicles Samples.searching)) as Hnodup.
  { vm_compute.
    repeat (constructor;
            [rewrite ?list_elem_of_In; cbn; intuition discriminate|]).
    constructor. }
  split.
  - pose proof (failed_markAsSold_restores_state Samples.refusing
                  (fun _ => Setters.currentPage_ (fun _ => 3%Z))
                  Samples.searching 0 (Samples.sample 7 None) eq_refl)
      as (_ & _ & _ & Hback).
    destruct (Hback 7%nat eq_refl Hnodup) as [Hlist _].
    exact (Hlist eq_refl).
  - rewrite run_is_runAmid.
    pose proof (failed_markAsSold_restores_state Samples.refusing
                  (fun _ s => s)
                  Samples.searching 0 (Samples.sample 7 None) eq_refl)
      as (_ & _ & _ & Hback).
    destruct (Hback 7%nat eq_refl Hnodup) as [_ Hall].
    exact (Hall eq_refl).
Defined.

(** X8. After a successful mark-as-sold the list is whatever the refetch
    brings, not the optimistic patch: the state is the one [fetchVehicles()]
    ends in when started from the patched state. So with a clean response
    the list is the list of the server and the page is 1, and when the
    refetch reports an error or throws the list is empty. *)
Theorem successful_markAsSold_takes_server_list (api : Api) (s : Dashboard)
    (n : nat) (vehicle : Vehicle) (response : ApiResponse) :
  api n _ (markAsSold (id vehicle)) = Fulfilled response ->
  success response = true ->
  let patched := Setters.vehicles_ (patchSold vehicle) s in
  let s' := finalState (run api (handleMarkAsSold vehicle) s n) in
  s' = finalState (run api (fetchVehicles None None) patched (S n)) /\
  (forall listed,
     api (S n) _ (getVehicles None None) = Fulfilled listed ->
     JS.truthy (list_error listed) = false ->
     vehicles s' = default [] (list_vehicles listed) /\
     currentPage s' = 1%Z) /\
  (forall listed,
     api (S n) _ (getVehicles None None) = Fulfilled listed ->
     JS.truthy (list_error listed) = true ->
     vehicles s' = []) /\
  (forall e,
     api (S n) _ (getVehicles None None) = Rejected e -> vehicles s' = []).
Proof.
  intros Hout Hok patched s'. subst s' patched.
  unfold handleMarkAsSold, finalState. cbn. rewrite Hout. cbn. rewrite Hok.
  unfold JS.or_undefined.
  settle; cbn; split_and!; try done; intros; simplify_eq; cbn;
    try done; try congruence.
  all: destruct (JS.truthy (list_error _)) eqn:?; cbn in *;
    try done; try congruence.
  all: destruct (list_error _); cbn in *; done.
Qed.

Lemma successful_markAsSold_takes_server_list_witness :
  vehicles (finalState
              (run Samples.accepting (handleMarkAsSold (Samples.sample 7 None))
                 Samples.searching 0)) = Samples.twelve.
Proof.
  pose proof (successful_markAsSold_takes_server_list Samples.accepting
                Samples.searching 0 (Samples.sample 7 None) _
                eq_refl eq_refl) as (_ & Hclean & _).
  destruct (Hclean _ eq_refl eq_refl) as [Hlist _]. exact Hlist.
Defined.

(** X9. The optimistic patch changes nothing but the status: the patched
    list has the same length and, status aside, the same entries in the
    same order, hence as many pages and the same ids on every page; entries
    with another id are untouched; and patching twice is patching once. *)
Theorem patchSold_changes_status_only (vehicle : Vehicle)
    (l : list Vehicle) :
  length (patchSold vehicle l) = length l /\
  (fun v => with_status v None) <$> patchSold vehicle l
  = (fun v => with_status v None) <$> l /\
  Pagination.totalPages (patchSold vehicle l) = Pagination.totalPages l /\
  (forall p,
     id <$> Pagination.currentVehicles (patchSold vehicle l) p
     = id <$> Pagination.currentVehicles l p) /\
  (forall j v,
     l !! j = Some v -> id v <> id vehicle ->
     patchSold vehicle l !! j = Some v) /\
  patchSold vehicle (patchSold vehicle l) = patchSold vehicle l.
Proof.
  assert (length (patchSold vehicle l) = length l) as Hlen
    by (unfold patchSold; apply length_fmap).
  split; [done|]. split; [|split; [|split; [|split]]].
  - unfold patchSold. rewrite <- list_fmap_compose. apply list_fmap_ext.
    intros j v _. cbn. by destruct (decide (id v = id vehicle)).
  - unfold Pagination.totalPages. by rewrite Hlen.
  - intros p. unfold Pagination.currentVehicles, JS.slice.
    rewrite Hlen, !fmap_take, !fmap_drop. do 2 f_equal.
    unfold patchSold. rewrite <- list_fmap_compose. apply list_fmap_ext.
    intros j v _. cbn. by destruct (decide (id v = id vehicle)).
  - intros j v Hj Hne. rewrite patchSold_lookup, Hj. cbn.
    by rewrite decide_False.
  - unfold patchSold. rewrite <- list_fmap_compose. apply list_fmap_ext.
    intros j v _. cbn. destruct (decide (id v = id vehicle)) as [Heq|Hne].
    + cbn. by rewrite decide_True.
    + by rewrite decide_False.
Qed.

Lemma patchSold_changes_status_only_witness :
  patchSold (Samples.sample 7 None) Samples.twelve !! 3%nat
  = Some (Samples.sample 3 None).
Proof.
  pose proof (patchSold_changes_status_only (Samples.sample 7 None)
                Samples.twelve) as (_ & _ & _ & _ & Hother & _).
  apply Hother; [reflexivity|discriminate].
Defined.

(** X10. Submitting the edit form of a vehicle (with no submission in
    flight): the update request carries the id of that vehicle and the
    submitted values and leaves with [isSubmitting] set. On success the
    edit view is closed, one unfiltered list request follows and
    [isSubmitting] is false again. When the envelope has no success, or the
    call throws, the state is what it was, so the edit view stays open, no
    list request is made and an error toast is raised. With a submission
    already in flight, submitting does nothing at all. *)
Theorem edit_submit_outcomes (api : Api) (s : Dashboard) (n : nat)
    (vehicle : Vehicle) (data : VehicleFormData) :
  let request := updateVehicle (id vehicle) data in
  let result := run api (onSubmit vehicle handleEditSave data) s n in
  let s' := finalState result in
  (isSubmitting s = true -> s' = s /\ eventsOf result = []) /\
  (isSubmitting s = false ->
   eventsOf result !! 0%nat
   = Some (Called request (Setters.isSubmitting_ true s)) /\
   (forall response,
      api n _ request = Fulfilled response ->
      success response = true ->
      editingVehicle s' = None /\
      isSubmitting s' = false /\
      eventsOf result !! 1%nat
      = Some (Toasted (toast_success
                         (JS.or_default (message response)
                            "Vehicle updated successfully"))) /\
      listRequests (eventsOf result) = [(None, None)]) /\
   (forall response,
      api n _ request = Fulfilled response ->
      success response = false ->
      s' = s /\
      eventsOf result
      = [Called request (Setters.isSubmitting_ true s);
         Toasted (toast_error (JS.or_default (error response)
                                 "Failed to update vehicle"))]) /\
   (forall e,
      api n _ request = Rejected e ->
      s' = s /\
      eventsOf result
      = [Called request (Setters.isSubmitting_ true s);
         Toasted (toast_error
                    (thrown_message e "An unexpected error occurred"))])).
Proof.
  intros request result s'. subst s' result request.
  unfold onSubmit, finalState, eventsOf. cbn.
  split; intros Hflag; rewrite Hflag; [done|].
  assert (Setters.isSubmitting_ false (Setters.isSubmitting_ true s) = s)
    as Hback by (destruct s; cbn in *; by subst).
  settle; cbn; split_and!; try done; intros; simplify_eq; cbn;
    try done; try congruence.
Qed.

Lemma edit_submit_outcomes_witness :
  editingVehicle
    (finalState (run Samples.accepting
                   (onSubmit (Samples.sample 7 None) handleEditSave
                      Samples.edited)
                   Samples.searching 0)) = None /\
  finalState (run Samples.refusing
                (onSubmit (Samples.sample 7 None) handleEditSave
                   Samples.edited)
                Samples.searching 0) = Samples.searching.
Proof.
  split.
  - pose proof (edit_submit_outcomes Samples.accepting Samples.searching 0
                  (Samples.sample 7 None) Samples.edited) as [_ Hidle].
    destruct (Hidle eq_refl) as (_ & Hok & _).
    destruct (Hok _ eq_refl eq_refl) as (Hclosed & _). exact Hclosed.
  - pose proof (edit_submit_outcomes Samples.refusing Samples.searching 0
                  (Samples.sample 7 None) Samples.edited) as [_ Hidle].
    destruct (Hidle eq_refl) as (_ & _ & Hfail & _).
    destruct (Hfail _ eq_refl eq_refl) as (Hsame & _). exact Hsame.
Defined.

Lemma or_undefined_trim (q : string) :
  JS.or_undefined (Some (JS.trim q))
  = if blank q then None else Some (JS.trim q).
Proof.
  unfold JS.or_undefined, JS.truthy.
  destruct (String.eqb_spec (JS.trim q) "") as [Hq|Hq].
  - apply TrimFacts.trim_empty_iff_blank in Hq. by rewrite Hq.
  - destruct (blank q) eqn:Hblank; [|done].
    by apply TrimFacts.trim_empty_iff_blank in Hblank.
Qed.

(** X11. A filter that holds nothing but white space (the white-space and
    line-terminator code points [trim] strips, the no-break space among
    them) is no filter: [fetchVehicles] sends [undefined] for a blank
    serial number or dealer code, as it does for a missing one, and
    otherwise the trimmed text, which is then not empty. *)
Theorem blank_filter_is_no_filter (api : Api) (s : Dashboard) (n : nat)
    (serialNumber dealerCode : string) :
  let sent (q : string) := if blank q then None else Some (JS.trim q) in
  eventsOf (run api (fetchVehicles (Some serialNumber) (Some dealerCode)) s n)
    !! 0%nat
  = Some (Called (getVehicles (sent serialNumber) (sent dealerCode))
            (Setters.isLoading_ true s)) /\
  (blank serialNumber = false -> JS.trim serialNumber <> "") /\
  (blank dealerCode = false -> JS.trim dealerCode <> "") /\
  (blank serialNumber = true ->
   listRequests
     (eventsOf (run api (fetchVehicles (Some serialNumber) None) s n))
   = listRequests (eventsOf (run api (fetchVehicles None None) s n))).
Proof.
  intros sent. subst sent. cbn beta.
  split; [|split; [|split]].
  - destruct (fetchVehicles_request api (Some serialNumber) (Some dealerCode)
                s n) as (s' & toasts & -> & _).
    cbn. by rewrite !or_undefined_trim.
  - intros Hq Hempty. apply TrimFacts.trim_empty_iff_blank in Hempty. congruence.
  - intros Hq Hempty. apply TrimFacts.trim_empty_iff_blank in Hempty. congruence.
  - intros Hblank.
    destruct (fetchVehicles_request api (Some serialNumber) None s n)
      as (s1 & toasts1 & -> & _).
    destruct (fetchVehicles_request api None None s n)
      as (s2 & toasts2 & -> & _).
    cbn. rewrite or_undefined_trim, Hblank. cbn.
    f_equal. clear. unfold listRequests.
    induction toasts1 as [|t1 toasts1 IH1]; cbn.
    + by induction toasts2 as [|t2 toasts2 IH2]; cbn.
    + exact IH1.
Qed.

(** A filter of a space, a no-break space and a line separator. *)
Lemma blank_filter_is_no_filter_witness :
  listRequests (eventsOf (run Samples.accepting
                            (fetchVehicles (Some Samples.blanks) None)
                            Samples.searching 0)) = [(None, None)].
Proof.
  pose proof (blank_filter_is_no_filter Samples.accepting Samples.searching
                0 Samples.blanks "") as (_ & _ & _ & Hblank).
  rewrite (Hblank eq_refl). reflexivity.
Defined.

Lemma isValid_spec (data : VehicleFormData) :
  isValid data = true <->
  form_dealer_code data <> "" /\
  form_model_name data <> "" /\
  form_serial_number data <> "".
Proof.
  unfold isValid, vehicleFormSchema.
  destruct (form_dealer_code data), (form_model_name data),
    (form_serial_number data); cbn; split; intros; try done;
    destruct_and?; done.
Qed.

(** X12. The edit form forwards a submission exactly when the schema
    accepts it, that is when dealer code, model name and serial number are
    all non-empty. An accepted submission runs [onSubmit] as it is, so with
    no submission in flight exactly one update request goes out, first of
    all, with the id of the edited vehicle and precisely the submitted
    values. A rejected one does nothing, no request and no change of state.
    In every case an update request of the run carries that id and those
    values. The values the form is loaded with for a vehicle pass the
    schema exactly when the vehicle has those three fields non-empty, and
    they keep the three fields as they are. *)
Theorem only_valid_forms_are_sent (api : Api) (s : Dashboard) (n : nat)
    (vehicle : Vehicle) (data : VehicleFormData) :
  let result := run api (submitEditForm vehicle data) s n in
  (isValid data = true <->
   form_dealer_code data <> "" /\
   form_model_name data <> "" /\
   form_serial_number data <> "") /\
  (isValid data = true ->
   result = run api (onSubmit vehicle handleEditSave data) s n /\
   (isSubmitting s = false ->
    eventsOf result !! 0%nat
    = Some (Called (updateVehicle (id vehicle) data)
              (Setters.isSubmitting_ true s)) /\
    updateRequests (eventsOf result) = [(id vehicle, data)])) /\
  (isValid data = false -> finalState result = s /\ eventsOf result = []) /\
  (forall sent,
     sent ∈ updateRequests (eventsOf result) ->
     sent = (id vehicle, data) /\ isValid data = true) /\
  (isValid (formOfVehicle vehicle) = true <->
   dealer_code vehicle <> "" /\
   model_name vehicle <> "" /\
   serial_number vehicle <> "") /\
  form_dealer_code (formOfVehicle vehicle) = dealer_code vehicle /\
  form_model_name (formOfVehicle vehicle) = model_name vehicle /\
  form_serial_number (formOfVehicle vehicle) = serial_number vehicle.
Proof.
  intros result.
  assert (forall x : string, JS.or_default (Some x) "" = x) as Hkeep.
  { intros x. unfold JS.or_default.
    destruct (String.eqb_spec x ""); by subst. }
  split; [apply isValid_spec|]. subst result.
  unfold submitEditForm, handleSubmit, finalState, eventsOf.
  split; [|split; [by intros ->|]]; [|split; [|split]].
  - intros ->. split; [done|]. intros Hidle.
    unfold onSubmit. cbn. rewrite Hidle. settle; done.
  - destruct (isValid data) eqn:Hvalid; [|by intros sent ?%elem_of_nil].
    unfold onSubmit. cbn. destruct (isSubmitting s);
      [by intros sent ?%elem_of_nil|].
    settle; cbn; intros sent Hsent;
      repeat (apply elem_of_cons in Hsent as [->|Hsent]; [done|]);
      by apply elem_of_nil in Hsent.
  - rewrite isValid_spec. unfold formOfVehicle.
    cbn [form_dealer_code form_model_name form_serial_number].
    by rewrite !Hkeep.
  - unfold formOfVehicle.
    cbn [form_dealer_code form_model_name form_serial_number].
    by rewrite !Hkeep.
Qed.

Lemma only_valid_forms_are_sent_witness :
  eventsOf (run Samples.accepting
              (submitEditForm (Samples.sample 7 None)
                 (mkVehicleFormData "" "" "" "" "" "Chetak" "" "" "SN"))
              Samples.searching 0) = [] /\
  updateRequests
    (eventsOf (run Samples.accepting
                 (submitEditForm (Samples.sample 7 None) Samples.edited)
                 Samples.searching 0)) = [(7%Z, Samples.edited)].
Proof.
  split.
  - pose proof (only_valid_forms_are_sent Samples.accepting
                  Samples.searching 0 (Samples.sample 7 None)
                  (mkVehicleFormData "" "" "" "" "" "Chetak" "" "" "SN"))
      as (_ & _ & Hrejected & _).
    destruct (Hrejected eq_refl) as [_ Hnone]. exact Hnone.
  - pose proof (only_valid_forms_are_sent Samples.accepting
                  Samples.searching 0 (Samples.sample 7 None) Samples.edited)
      as (_ & Haccepted & _).
    destruct (Haccepted eq_refl) as [_ Hidle].
    destruct (Hidle eq_refl) as [_ Hsent]. exact Hsent.
Defined.

End HandlerMore.

(** ** Invariants of the mounted dashboard *)

Module MachineFacts.
Import HandlerFacts.
Local Open Scope Z_scope.

#[local] Arguments patchSold : simpl never.
#[local] Arguments revertSold : simpl never.

Lemma step_dispatches (api : Api) (a : Action) (m : Machine) :
  step api a m
  = match a with
    | Elapse dt => elapse api dt m
    | _ => dispatch api (handlerOf a) m
    end.
Proof. by destruct a. Qed.

(** *** The page stays in range *)

Lemma page_one_in_range (s : Dashboard) :
  currentPage s = 1 -> pageInRange s.
Proof.
  intros Hpage. unfold pageInRange.
  destruct (vehicles s) as [|v l] eqn:Hl; [by left|right].
  pose proof (PaginationFacts.totalPages_bounds (v :: l)).
  cbn [length] in *. lia.
Qed.

Lemma empty_in_range (s : Dashboard) : vehicles s = [] -> pageInRange s.
Proof. by left. Qed.

Lemma same_length_in_range (s s' : Dashboard) :
  length (vehicles s') = length (vehicles s) ->
  currentPage s' = currentPage s ->
  pageInRange s -> pageInRange s'.
Proof.
  unfold pageInRange, Pagination.totalPages. intros Hlen Hpage [Hnil|Hin].
  - left. apply length_zero_iff_nil. by rewrite Hlen, Hnil.
  - right. by rewrite Hlen, Hpage.
Qed.

Lemma click_in_range (s : Dashboard) (f : Z -> Z) :
  (f = Pagination.clickPrevious \/ f = Pagination.clickNext (vehicles s)) ->
  pageInRange s -> pageInRange (Setters.currentPage_ f s).
Proof.
  unfold pageInRange. intros Hf [Hnil|Hin]; [by left|right]. cbn.
  destruct Hf as [->| ->];
    unfold Pagination.clickPrevious, Pagination.clickNext,
      Pagination.previousDisabled, Pagination.nextDisabled,
      Pagination.previousPage, Pagination.nextPage.
  - destruct (Z.eqb_spec (currentPage s) 1); lia.
  - destruct (Z.eqb_spec (currentPage s) (Pagination.totalPages (vehicles s)));
      lia.
Qed.

Lemma fetchVehicles_in_range (api : Api) (a b : option string)
    (s : Dashboard) (n : nat) :
  pageInRange (finalState (run api (fetchVehicles a b) s n)).
Proof.
  unfold fetchVehicles, finalState.
  settle; cbn; (by apply empty_in_range) || (by apply page_one_in_range).
Qed.

Ltac in_range :=
  first
    [ assumption
    | by apply empty_in_range
    | by apply page_one_in_range
    | by (eapply same_length_in_range; [| |eassumption]; cbn;
          rewrite ?length_fmap; unfold revertSold, patchSold;
          rewrite ?length_fmap)
    | by (apply click_in_range; [auto|assumption]) ].

Lemma handlers_keep_view (a : Action) : keepsView (handlerOf a).
Proof.
  intros api s n.
  destruct a; cbn [handlerOf]; unfold finalState;
    try (destruct mode);
    unfold clickSerialNumberMode, clickDealerCodeMode, handleClearSearch,
      handleDelete, handleMarkAsSold, handleEditCancel, onSubmit,
      handleEditSave; cbn;
    try (destruct (deletingVehicle s)); try (destruct (isSubmitting s));
    settle; cbn; (split; [done|]); (split; [done|]); intros Hin; in_range.
Qed.

Lemma autoSearch_keeps_view : keepsView autoSearch.
Proof.
  intros api s n. unfold autoSearch, autoSearchFilters, finalState. cbn.
  destruct (searchMode s); settle; cbn;
    (split; [done|]); (split; [done|]); intros Hin; in_range.
Qed.

(** *** The hooks *)

Section Hooks.
Context {T : Type} `{EqDecision T}.
Implicit Types tr : Debounce.tracker T.

Lemma rerender_seen tr (v : T) (delay now : Z) :
  Debounce.value (Debounce.rerender tr v delay now) = v.
Proof.
  unfold Debounce.rerender. by destruct (decide (v = Debounce.value tr)).
Qed.

Lemma rerender_same tr (delay now : Z) :
  Debounce.rerender tr (Debounce.value tr) delay now = tr.
Proof. unfold Debounce.rerender. by rewrite decide_True. Qed.

Lemma rerender_delayed tr (v : T) (delay now : Z) :
  Debounce.debouncedValue (Debounce.rerender tr v delay now)
  = Debounce.debouncedValue tr.
Proof.
  unfold Debounce.rerender. by destruct (decide (v = Debounce.value tr)).
Qed.

Lemma rerender_on_time tr (v : T) (delay now : Z) :
  0 <= delay ->
  Tracking.onTime delay now tr ->
  Tracking.onTime delay now (Debounce.rerender tr v delay now).
Proof.
  intros Hdelay Htr. unfold Debounce.rerender.
  destruct (decide (v = Debounce.value tr)); [done|].
  unfold Tracking.onTime. cbn. split; [done|lia].
Qed.

Lemma advance_seen tr (now : Z) :
  Debounce.value (Debounce.advance tr now).1 = Debounce.value tr.
Proof.
  unfold Debounce.advance. destruct (Debounce.timer tr) as [[due v]|]; [|done].
  by destruct (due <=? now).
Qed.

Lemma advance_on_time tr (delay now target : Z) :
  now <= target ->
  Tracking.onTime delay now tr ->
  Tracking.onTime delay target (Debounce.advance tr target).1.
Proof.
  intros Hnow. unfold Tracking.onTime, Debounce.advance.
  destruct (Debounce.timer tr) as [[due v]|] eqn:Htimer.
  - intros [-> Hdue]. destruct (Z.leb_spec due target); cbn; [done|].
    rewrite Htimer. split; [done|lia].
  - intros Htr. cbn. by rewrite Htimer.
Qed.

(** After [delay] or more, nothing is pending. *)
Lemma advance_settles tr (delay now target : Z) :
  now + delay <= target ->
  Tracking.onTime delay now tr ->
  Debounce.timer (Debounce.advance tr target).1 = None /\
  Debounce.debouncedValue (Debounce.advance tr target).1 = Debounce.value tr.
Proof.
  intros Hnow. unfold Tracking.onTime, Debounce.advance.
  destruct (Debounce.timer tr) as [[due v]|] eqn:Htimer.
  - intros [-> Hdue]. destruct (Z.leb_spec due target); [done|lia].
  - intros Htr. cbn. by rewrite Htimer.
Qed.

Lemma rerender_seen_same tr (q : T) (delay now : Z) :
  Debounce.value tr = q -> Debounce.rerender tr q delay now = tr.
Proof. intros <-. apply rerender_same. Qed.

Lemma rerender_fired tr (v q : T) (delay now : Z) :
  Debounce.value tr = q ->
  Debounce.rerender (Debounce.fire tr v) q delay now = Debounce.fire tr v.
Proof. intros <-. apply (rerender_same (Debounce.fire tr v)). Qed.

End Hooks.

(** *** Renders *)

(** What a render does: the clock stands still, the effect is up to date
    afterwards, each hook has seen its query, and queries, mode and the
    range of the page are kept. *)
Lemma render_spec (api : Api) (m : Machine) :
  let s := dash m in
  let s' := dash (render api m) in
  now (render api m) = now m /\
  lastDeps (render api m) = Some (effectDeps s') /\
  debouncedSerialNumber s'
  = Debounce.rerender (debouncedSerialNumber s) (searchSerialNumber s)
      DEBOUNCE_DELAY_MS (now m) /\
  debouncedDealerCode s'
  = Debounce.rerender (debouncedDealerCode s) (searchDealerCode s)
      DEBOUNCE_DELAY_MS (now m) /\
  searchSerialNumber s' = searchSerialNumber s /\
  searchDealerCode s' = searchDealerCode s /\
  searchMode s' = searchMode s /\
  (pageInRange s -> pageInRange s').
Proof.
  intros s s'. subst s s'. unfold render.
  set (s1 := Setters.debounced_ _ _ (dash m)).
  destruct (decide (lastDeps m = Some (effectDeps s1))) as [Hdeps|_].
  - cbn. done.
  - pose proof (autoSearch_keeps_view api s1 (apiCalls m))
      as (Hds & Hdd & Hpage).
    unfold finalState in *. unfold autoSearch in *. cbn [run] in *.
    destruct (autoSearchFilters s1) as [serialFilter dealerFilter].
    destruct (fetchVehicles_request api serialFilter dealerFilter s1
                (apiCalls m))
      as (s2 & toasts & Hrun & _ & Hsn & Hdc & Hmode & Hds' & Hdd' & _).
    rewrite Hrun in *. cbn in *.
    unfold effectDeps. rewrite Hds', Hdd', Hmode.
    split_and!; try done. 
Qed.

Lemma render_stable (api : Api) (m : Machine) :
  Tracking.onTime DEBOUNCE_DELAY_MS (now m) (debouncedSerialNumber (dash m)) ->
  Tracking.onTime DEBOUNCE_DELAY_MS (now m) (debouncedDealerCode (dash m)) ->
  pageInRange (dash m) ->
  Stable (render api m).
Proof.
  intros Hs Hd Hpage.
  destruct (render_spec api m)
    as (Hnow & Hdeps & Hds & Hdd & Hsn & Hdc & _ & Hin).
  split; rewrite ?Hnow, ?Hds, ?Hdd, ?Hsn, ?Hdc; try done.
  - apply rerender_seen.
  - apply rerender_seen.
  - by apply rerender_on_time.
  - by apply rerender_on_time.
  - by apply Hin.
Qed.

Lemma mounted_stable (api : Api) : Stable (mounted api).
Proof.
  apply render_stable; cbn; try done. by left.
Qed.

Lemma dispatch_stable (api : Api) (a : Action) (m : Machine) :
  Stable m -> Stable (dispatch api (handlerOf a) m).
Proof.
  intros [_ _ _ Hs Hd Hpage]. unfold dispatch.
  pose proof (handlers_keep_view a api (dash m) (apiCalls m))
    as (Hds & Hdd & Hin).
  unfold finalState in *.
  destruct (run api (handlerOf a) (dash m) (apiCalls m)) as [[[[] s] n] evs].
  cbn in *. apply render_stable; cbn; rewrite ?Hds, ?Hdd; auto.
Qed.

(** One timeout fires: which one, and what is left as it was. *)
Lemma fireDue_spec (api : Api) (target : Z) (m : Machine) :
  Debounce.value (debouncedSerialNumber (dash m))
  = searchSerialNumber (dash m) ->
  Debounce.value (debouncedDealerCode (dash m)) = searchDealerCode (dash m) ->
  let m1 := fireDue api target m in
  match nextDue (dash m) target with
  | None => m1 = m
  | Some (serial, t, v) =>
      now m1 = t /\
      lastDeps m1 = Some (effectDeps (dash m1)) /\
      debouncedSerialNumber (dash m1)
      = (if serial then Debounce.fire (debouncedSerialNumber (dash m)) v
         else debouncedSerialNumber (dash m)) /\
      debouncedDealerCode (dash m1)
      = (if serial then debouncedDealerCode (dash m)
         else Debounce.fire (debouncedDealerCode (dash m)) v) /\
      searchSerialNumber (dash m1) = searchSerialNumber (dash m) /\
      searchDealerCode (dash m1) = searchDealerCode (dash m) /\
      searchMode (dash m1) = searchMode (dash m) /\
      (pageInRange (dash m) -> pageInRange (dash m1))
  end.
Proof.
  intros Hsn Hdc m1. subst m1. unfold fireDue.
  destruct (nextDue (dash m) target) as [[[[] t] v]|]; [| |done].
  - match goal with |- context [render api ?x] =>
      destruct (render_spec api x)
        as (Hnow & Hdeps & Hds & Hdd & Hsn' & Hdc' & Hmode & Hin)
    end.
    cbn in *.
    rewrite ?rerender_fired, ?rerender_seen_same in Hds, Hdd by done. done.
  - match goal with |- context [render api ?x] =>
      destruct (render_spec api x)
        as (Hnow & Hdeps & Hds & Hdd & Hsn' & Hdc' & Hmode & Hin)
    end.
    cbn in *.
    rewrite ?rerender_fired, ?rerender_seen_same in Hds, Hdd by done. done.
Qed.

(** Which timeout [nextDue] picks, in terms of the two hooks. *)
Lemma nextDue_spec (s : Dashboard) (target : Z) :
  let S := debouncedSerialNumber s in
  let D := debouncedDealerCode s in
  match nextDue s target with
  | None =>
      (Debounce.advance S target).1 = S /\ (Debounce.advance D target).1 = D
  | Some (true, t, v) =>
      Debounce.timer S = Some (t, v) /\
      (Debounce.advance S target).1 = Debounce.fire S v
  | Some (false, t, v) =>
      Debounce.timer D = Some (t, v) /\
      (Debounce.advance D target).1 = Debounce.fire D v
  end.
Proof.
  intros S D. subst S D. unfold nextDue, Debounce.advance.
  destruct (Debounce.timer (debouncedSerialNumber s)) as [[t1 v1]|];
    destruct (Debounce.timer (debouncedDealerCode s)) as [[t2 v2]|];
    repeat match goal with
           | |- context [(?a <=? ?b)%Z] => destruct (a <=? b)%Z eqn:?
           end; done.
Qed.

Lemma advance_fired {T} (tr : Debounce.tracker T) (v : T) (target : Z) :
  (Debounce.advance (Debounce.fire tr v) target).1 = Debounce.fire tr v.
Proof. done. Qed.

(** Letting time pass advances each hook on its own, and nothing else
    about the search changes. *)
Lemma elapse_spec (api : Api) (dt : Z) (m : Machine) :
  Stable m ->
  let target := now m + Z.max 0 dt in
  let m' := elapse api dt m in
  now m' = target /\
  lastDeps m' = Some (effectDeps (dash m')) /\
  debouncedSerialNumber (dash m')
  = (Debounce.advance (debouncedSerialNumber (dash m)) target).1 /\
  debouncedDealerCode (dash m')
  = (Debounce.advance (debouncedDealerCode (dash m)) target).1 /\
  searchSerialNumber (dash m') = searchSerialNumber (dash m) /\
  searchDealerCode (dash m') = searchDealerCode (dash m) /\
  searchMode (dash m') = searchMode (dash m) /\
  pageInRange (dash m').
Proof.
  intros [Hdeps Hsn Hdc _ _ Hpage] target m'. subst m'. unfold elapse.
  fold target. cbn [now dash lastDeps].
  pose proof (fireDue_spec api target m Hsn Hdc) as H1.
  pose proof (nextDue_spec (dash m) target) as N1.
  cbn zeta in *.
  destruct (nextDue (dash m) target) as [[[b1 t1] v1]|].
  - destruct H1 as (_ & Hdeps1 & Hds1 & Hdd1 & Hsn1 & Hdc1 & Hmode1 & Hin1).
    set (m1 := fireDue api target m) in *.
    assert (Debounce.value (debouncedSerialNumber (dash m1))
            = searchSerialNumber (dash m1)) as Hseen1
      by (rewrite Hds1, Hsn1; by destruct b1).
    assert (Debounce.value (debouncedDealerCode (dash m1))
            = searchDealerCode (dash m1)) as Hseen2
      by (rewrite Hdd1, Hdc1; by destruct b1).
    pose proof (fireDue_spec api target m1 Hseen1 Hseen2) as H2.
    pose proof (nextDue_spec (dash m1) target) as N2.
    cbn zeta in *. rewrite Hds1, Hdd1 in N2.
    destruct (nextDue (dash m1) target) as [[[b2 t2] v2]|].
    + destruct H2 as (_ & Hdeps2 & Hds2 & Hdd2 & Hsn2 & Hdc2 & Hmode2 & Hin2).
      rewrite Hds2, Hdd2, Hds1, Hdd1, Hsn2, Hdc2, Hmode2.
      destruct b1, b2; destruct N1 as [_ N1]; destruct N2 as [N2 N2'];
        try done; rewrite ?N1, ?N2'; split_and!; auto.
    + rewrite H2. rewrite Hds1, Hdd1.
      destruct b1; destruct N1 as [_ N1]; destruct N2 as [N2 N2'];
        rewrite ?N1, ?N2, ?N2', ?advance_fired; split_and!; auto.
  - rewrite !H1. destruct N1 as [-> ->]. split_and!; auto.
Qed.

Lemma elapse_stable (api : Api) (dt : Z) (m : Machine) :
  Stable m -> Stable (elapse api dt m).
Proof.
  intros Hm.
  destruct (elapse_spec api dt m Hm)
    as (Hnow & Hdeps & Hds & Hdd & Hsn & Hdc & _ & Hin).
  destruct Hm as [_ Hseen1 Hseen2 Hs Hd _].
  split; rewrite ?Hnow, ?Hds, ?Hdd, ?Hsn, ?Hdc, ?advance_seen; try done.
  - apply (advance_on_time _ _ (now m)); [lia|done].
  - apply (advance_on_time _ _ (now m)); [lia|done].
Qed.

Lemma step_stable (api : Api) (a : Action) (m : Machine) :
  Stable m -> Stable (step api a m).
Proof.
  intros Hm. rewrite step_dispatches.
  destruct a; (by apply elapse_stable) || (by apply dispatch_stable).
Qed.

Lemma steps_stable (api : Api) (actions : list Action) :
  forall m, Stable m -> Stable (steps api actions m).
Proof.
  induction actions as [|a actions IH]; intros m Hm; [done|].
  cbn. apply IH. by apply step_stable.
Qed.

Lemma reachable_stable (api : Api) (actions : list Action) :
  Stable (steps api actions (mounted api)).
Proof. apply steps_stable, mounted_stable. Qed.

(** X13. Whatever has happened to a mounted dashboard, the current page is
    a page of the list whenever the list is not empty, so the table never
    stands empty while there are vehicles: the page is within
    [1 .. totalPages] and its slice has at least one row. *)
Theorem page_is_always_in_range (api : Api) (actions : list Action) :
  let s := dash (steps api actions (mounted api)) in
  vehicles s <> [] ->
  (1 <= currentPage s <= Pagination.totalPages (vehicles s)) /\
  Pagination.currentVehicles (vehicles s) (currentPage s) <> [].
Proof.
  intros s Hne.
  destruct (reachable_stable api actions) as [_ _ _ _ _ [Hnil|Hin]]; [done|].
  fold s in Hin. split; [done|].
  pose proof (PaginationFacts.page_length (vehicles s) (currentPage s)
                ltac:(lia)) as Hlen.
  pose proof (PaginationFacts.totalPages_bounds (vehicles s)) as Hb.
  intros Hnone. rewrite Hnone in Hlen. cbn in Hlen.
  unfold Pagination.ITEMS_PER_PAGE in *. lia.
Qed.

(** Four clicks on Next with three pages. *)
Lemma page_is_always_in_range_witness :
  let s := dash (steps Samples.accepting
                   [ClickNext; ClickNext; ClickNext; ClickNext]
                   (mounted Samples.accepting)) in
  Pagination.currentVehicles (vehicles s) (currentPage s) <> [].
Proof.
  intros s.
  apply (page_is_always_in_range Samples.accepting
           [ClickNext; ClickNext; ClickNext; ClickNext]).
  vm_compute. discriminate.
Defined.

(** X14. Once 500 ms have passed without an action, the search has caught
    up: no timeout is pending, both delayed values are the queries in the
    inputs, and the "Searching..." indicator is off. *)
Theorem search_settles_after_the_delay (api : Api) (actions : list Action)
    (dt : Z) :
  DEBOUNCE_DELAY_MS <= dt ->
  let s := dash (step api (Elapse dt) (steps api actions (mounted api))) in
  Debounce.timer (debouncedSerialNumber s) = None /\
  Debounce.timer (debouncedDealerCode s) = None /\
  Debounce.debouncedValue (debouncedSerialNumber s) = searchSerialNumber s /\
  Debounce.debouncedValue (debouncedDealerCode s) = searchDealerCode s /\
  isSearchPending s = false.
Proof.
  intros Hdt s. subst s. cbn [step].
  pose proof (reachable_stable api actions) as Hm.
  set (m := steps api actions (mounted api)) in *.
  destruct (elapse_spec api dt m Hm)
    as (_ & _ & Hds & Hdd & Hsn & Hdc & _).
  destruct Hm as [_ Hseen1 Hseen2 Hs Hd _].
  assert (now m + DEBOUNCE_DELAY_MS <= now m + Z.max 0 dt) as Hlate by lia.
  destruct (advance_settles _ _ _ _ Hlate Hs) as [Ht1 Hv1].
  destruct (advance_settles _ _ _ _ Hlate Hd) as [Ht2 Hv2].
  unfold isSearchPending.
  rewrite Hds, Hdd, Hsn, Hdc, Ht1, Ht2, Hv1, Hv2, Hseen1, Hseen2.
  rewrite !bool_decide_eq_true_2 by done. done.
Qed.

Lemma search_settles_after_the_delay_witness :
  isSearchPending
    (dash (step Samples.accepting (Elapse 500)
             (steps Samples.accepting [SetSerialQuery "ABC"]
                (mounted Samples.accepting)))) = false.
Proof.
  pose proof (search_settles_after_the_delay Samples.accepting
                [SetSerialQuery "ABC"] 500) as Hthm.
  apply Hthm. unfold DEBOUNCE_DELAY_MS. lia.
Defined.

(** *** When the effect runs *)

Lemma listRequests_app (evs1 evs2 : list Event) :
  listRequests (evs1 ++ evs2) = listRequests evs1 ++ listRequests evs2.
Proof. apply omap_app. Qed.

Lemma listRequests_toasts (toasts : list Toast) :
  listRequests (Toasted <$> toasts) = [].
Proof. by induction toasts. Qed.

(** With the effect up to date a render sends nothing. *)
Lemma render_quiet (api : Api) (m : Machine) :
  lastDeps m = Some (effectDeps (dash m)) ->
  history (render api m) = history m /\
  apiCalls (render api m) = apiCalls m /\
  vehicles (dash (render api m)) = vehicles (dash m).
Proof.
  intros Hdeps. unfold render.
  rewrite decide_True; [done|].
  rewrite Hdeps. unfold effectDeps. cbn. by rewrite !rerender_delayed.
Qed.

(** With the effect out of date a render sends one list request, the one
    of the auto-search effect. *)
Lemma render_fetches (api : Api) (m : Machine) :
  lastDeps m <> Some (effectDeps (dash m)) ->
  let filters := autoSearchFilters (dash m) in
  listRequests (history (render api m))
  = listRequests (history m)
    ++ [(JS.or_undefined (JS.trim <$> filters.1),
         JS.or_undefined (JS.trim <$> filters.2))] /\
  apiCalls (render api m) = S (apiCalls m).
Proof.
  intros Hdeps filters. unfold render.
  set (s1 := Setters.debounced_ _ _ (dash m)).
  assert (effectDeps s1 = effectDeps (dash m)) as Hsame
    by (unfold effectDeps; cbn; by rewrite !rerender_delayed).
  assert (autoSearchFilters s1 = filters) as Hfilters
    by (subst filters; unfold autoSearchFilters; cbn;
        by rewrite !rerender_delayed).
  rewrite decide_False by (by rewrite Hsame).
  unfold autoSearch. cbn [run]. rewrite Hfilters.
  destruct filters as [serialFilter dealerFilter].
  destruct (fetchVehicles_request api serialFilter dealerFilter s1
              (apiCalls m))
    as (s2 & toasts & -> & _).
  cbn [history apiCalls fst snd].
  rewrite listRequests_app. cbn. by rewrite listRequests_toasts.
Qed.

Lemma local_handlers_stay_local (a : Action) :
  isLocal a = true -> staysLocal (handlerOf a).
Proof.
  intros Hlocal api s n. destruct a; try done; cbn; eauto.
Qed.

(** X15. Typing into a search box, clearing the filters, opening or
    cancelling the delete dialog or the edit view, and paging send nothing:
    after such an action the dashboard has made no further API call, has
    raised no toast and shows the same list. *)
Theorem local_actions_send_nothing (api : Api) (actions : list Action)
    (a : Action) :
  isLocal a = true ->
  let m := steps api actions (mounted api) in
  let m' := step api a m in
  history m' = history m /\
  apiCalls m' = apiCalls m /\
  vehicles (dash m') = vehicles (dash m).
Proof.
  intros Hlocal m m'. subst m'.
  destruct (reachable_stable api actions) as [Hdeps _ _ _ _ _]. fold m in Hdeps.
  rewrite step_dispatches.
  replace (match a with Elapse dt => elapse api dt m
                      | _ => dispatch api (handlerOf a) m end)
    with (dispatch api (handlerOf a) m) by (by destruct a).
  unfold dispatch.
  destruct (local_handlers_stay_local a Hlocal api (dash m) (apiCalls m))
    as (s' & -> & Heff & Hlist).
  match goal with |- context [render api ?x] =>
    destruct (render_quiet api x) as (-> & -> & ->)
  end; cbn; [by rewrite Heff| by rewrite app_nil_r].
Qed.

Lemma local_actions_send_nothing_witness :
  listRequests
    (history (steps Samples.accepting [SetSerialQuery "ABC"]
                (mounted Samples.accepting))) = [(None, None)].
Proof.
  pose proof (local_actions_send_nothing Samples.accepting []
                (SetSerialQuery "ABC") eq_refl) as (Hsame & _).
  etrans; [exact (f_equal listRequests Hsame)|reflexivity].
Defined.

(** X16. A click on the button of the mode that is already active sends
    nothing. A click on the other mode button sends exactly one list
    request, and at once: it carries the delayed query of the new mode as
    the hook holds it at that moment, trimmed, or no filter when that is
    blank, and nothing for the mode just left. *)
Theorem mode_switch_fetches_once (api : Api) (actions : list Action)
    (mode : VehicleSearchMode) :
  let m := steps api actions (mounted api) in
  let m' := step api (SetMode mode) m in
  let sent (q : string) := if blank q then None else Some (JS.trim q) in
  (mode = searchMode (dash m) ->
   history m' = history m /\ apiCalls m' = apiCalls m) /\
  (mode <> searchMode (dash m) ->
   listRequests (history m')
   = listRequests (history m)
     ++ [match mode with
         | serial_number_mode =>
             (sent (Debounce.debouncedValue (debouncedSerialNumber (dash m))),
              None)
         | dealer_code_mode =>
             (None,
              sent (Debounce.debouncedValue (debouncedDealerCode (dash m))))
         end] /\
   apiCalls m' = S (apiCalls m)).
Proof.
  intros m m' sent. subst m' sent.
  destruct (reachable_stable api actions) as [Hdeps _ _ _ _ _]. fold m in Hdeps.
  cbn [step]. unfold dispatch.
  assert (exists s',
            run api (setMode mode) (dash m) (apiCalls m)
            = (tt, s', apiCalls m, []) /\
            searchMode s' = mode /\
            debouncedSerialNumber s' = debouncedSerialNumber (dash m) /\
            debouncedDealerCode s' = debouncedDealerCode (dash m))
    as (s' & -> & Hmode & Hds & Hdd) by (destruct mode; cbn; eauto).
  assert (effectDeps s'
          = (Debounce.debouncedValue (debouncedSerialNumber (dash m)),
             Debounce.debouncedValue (debouncedDealerCode (dash m)), mode))
    as Heff by (unfold effectDeps; by rewrite Hds, Hdd, Hmode).
  rewrite app_nil_r. split; intros Hcase.
  - match goal with |- context [render api ?x] =>
      destruct (render_quiet api x) as (-> & -> & _)
    end; [|done].
    cbn. rewrite Hdeps, Heff. unfold effectDeps. by rewrite Hcase.
  - match goal with |- context [render api ?x] =>
      destruct (render_fetches api x) as (-> & ->)
    end.
    + cbn. rewrite Hdeps, Heff. unfold effectDeps. congruence.
    + split; [|done]. cbn [dash history]. f_equal.
      unfold autoSearchFilters. rewrite Hmode, Hds, Hdd.
      destruct mode; cbn; by rewrite HandlerMore.or_undefined_trim.
Qed.

(** Switching to dealer-code mode and back within the delay: the second
    switch sends the serial number the hook still holds, although the
    input has been cleared. *)
Lemma mode_switch_fetches_once_witness :
  let m := steps Samples.accepting
             [SetSerialQuery "ABC"; Elapse 500; SetMode dealer_code_mode;
              Elapse 100]
             (mounted Samples.accepting) in
  searchSerialNumber (dash m) = "" /\
  listRequests (history (step Samples.accepting (SetMode serial_number_mode) m))
  = listRequests (history m) ++ [(Some "ABC", None)].
Proof.
  intros m. split; [reflexivity|].
  pose proof (mode_switch_fetches_once Samples.accepting
                [SetSerialQuery "ABC"; Elapse 500; SetMode dealer_code_mode;
                 Elapse 100] serial_number_mode) as [_ Hother].
  destruct Hother as [Hsent _]; [by vm_compute|].
  exact Hsent.
Defined.

Lemma hasSearchFilters_spec (s : Dashboard) :
  hasSearchFilters s = false <->
  blank (searchSerialNumber s) = true /\ blank (searchDealerCode s) = true.
Proof.
  unfold hasSearchFilters.
  rewrite <- !TrimFacts.trim_empty_iff_blank.
  destruct (JS.trim (searchSerialNumber s)), (JS.trim (searchDealerCode s));
    cbn; split; intros; destruct_and?; done.
Qed.

(** X17. The Clear Filters button is enabled exactly when one of the two
    queries has a character that is not white space. Clearing empties both
    queries and keeps the mode, which disables the button, and sends
    nothing at once; 500 ms later both delayed queries are empty too, so
    the search the dashboard has settled on is the unfiltered one. *)
Theorem clearing_the_search (api : Api) (actions : list Action) (dt : Z) :
  let m := steps api actions (mounted api) in
  let m' := step api ClearSearch m in
  let s'' := dash (step api (Elapse dt) m') in
  (clearDisabled (dash m) = false <->
   blank (searchSerialNumber (dash m)) = false \/
   blank (searchDealerCode (dash m)) = false) /\
  searchSerialNumber (dash m') = "" /\
  searchDealerCode (dash m') = "" /\
  searchMode (dash m') = searchMode (dash m) /\
  clearDisabled (dash m') = true /\
  history m' = history m /\
  (DEBOUNCE_DELAY_MS <= dt ->
   Debounce.debouncedValue (debouncedSerialNumber s'') = "" /\
   Debounce.debouncedValue (debouncedDealerCode s'') = "" /\
   autoSearchFilters s''
   = match searchMode (dash m) with
     | serial_number_mode => (Some "", None)
     | dealer_code_mode => (None, Some "")
     end).
Proof.
  intros m m' s''.
  pose proof (reachable_stable api actions) as Hm. fold m in Hm.
  pose proof (step_stable api ClearSearch m Hm) as Hm'. fold m' in Hm'.
  assert (searchSerialNumber (dash m') = "" /\
          searchDealerCode (dash m') = "" /\
          searchMode (dash m') = searchMode (dash m) /\
          history m' = history m) as (Hsn & Hdc & Hmode & Hhist).
  { subst m'. cbn [step]. unfold dispatch. cbn.
    match goal with |- context [render api ?x] =>
      destruct (render_spec api x) as (_ & _ & _ & _ & -> & -> & -> & _);
      destruct (render_quiet api x) as (-> & _)
    end; cbn; [|by rewrite app_nil_r].
    by destruct Hm. }
  split.
  { unfold clearDisabled. pose proof (hasSearchFilters_spec (dash m)) as Hspec.
    destruct (hasSearchFilters (dash m)),
      (blank (searchSerialNumber (dash m))),
      (blank (searchDealerCode (dash m))); cbn; intuition congruence. }
  split; [done|]. split; [done|]. split; [done|]. split.
  { unfold clearDisabled.
    assert (hasSearchFilters (dash m') = false) as ->; [|done].
    apply hasSearchFilters_spec. by rewrite Hsn, Hdc. }
  split; [done|].
  intros Hdt. subst s''. cbn [step].
  destruct (elapse_spec api dt m' Hm')
    as (_ & _ & Hds & Hdd & _ & _ & Hmode' & _).
  destruct Hm' as [_ Hseen1 Hseen2 Hs Hd _].
  assert (now m' + DEBOUNCE_DELAY_MS <= now m' + Z.max 0 dt) as Hlate by lia.
  destruct (advance_settles _ _ _ _ Hlate Hs) as [_ Hv1].
  destruct (advance_settles _ _ _ _ Hlate Hd) as [_ Hv2].
  unfold autoSearchFilters.
  rewrite Hds, Hdd, Hv1, Hv2, Hseen1, Hseen2, Hsn, Hdc, Hmode', Hmode.
  by destruct (searchMode (dash m)).
Qed.

(** A search cleared and settled; and a query of blanks only, the no-break
    space among them, which leaves the button disabled. *)
Lemma clearing_the_search_witness :
  autoSearchFilters
    (dash (steps Samples.accepting
             [SetSerialQuery "ABC"; Elapse 500; ClearSearch; Elapse 500]
             (mounted Samples.accepting))) = (Some "", None) /\
  clearDisabled
    (dash (steps Samples.accepting [SetSerialQuery Samples.blanks]
             (mounted Samples.accepting))) = true.
Proof.
  split.
  - pose proof (clearing_the_search Samples.accepting
                  [SetSerialQuery "ABC"; Elapse 500] 500)
      as (_ & _ & _ & _ & _ & _ & Hlater).
    destruct Hlater as (_ & _ & Hfilters); [unfold DEBOUNCE_DELAY_MS; lia|].
    exact Hfilters.
  - pose proof (clearing_the_search Samples.accepting
                  [SetSerialQuery Samples.blanks] 0) as (Henabled & _).
    destruct (clearDisabled _); [done|].
    destruct (proj1 Henabled eq_refl) as [Hq|Hq];
      vm_compute in Hq; discriminate.
Defined.

End MachineFacts.

(** ** The application shell *)

Module ShellFacts.
Import Shell.

Lemma handleLogin_spec (a : App) :
  isAuthenticated a = false ->
  let a' := handleLogin a in
  if decide (username (login a) = "admin" /\ password (login a) = "123456")
  then isAuthenticated a' = true /\ currentView a' = dashboard_view
  else isAuthenticated a' = false /\
       currentView a' = currentView a /\
       login a'
       = mkLoginForm (username (login a)) (password (login a))
           "Invalid username or password.".
Proof.
  intros Hout. unfold handleLogin, HARDCODED_USERNAME, HARDCODED_PASSWORD.
  destruct (String.eqb_spec (username (login a)) "admin") as [Hu|Hu];
    destruct (String.eqb_spec (password (login a)) "123456") as [Hp|Hp];
    cbn.
  - by rewrite decide_True.
  - rewrite decide_False by tauto. done.
  - rewrite decide_False by tauto. done.
  - rewrite decide_False by tauto. done.
Qed.

(** What holds of the shell after any sequence of actions: logged out, the
    view is the dashboard. *)
Lemma acts_view (us : list UserAction) :
  forall a,
    (isAuthenticated a = false -> currentView a = dashboard_view) ->
    isAuthenticated (acts us a) = false ->
    currentView (acts us a) = dashboard_view.
Proof.
  induction us as [|u us IH]; intros a Ha; [done|].
  cbn. apply IH. unfold act.
  destruct (isAuthenticated a) eqn:Hauth.
  - destruct u, (currentView a); cbn; try done; by rewrite ?Hauth.
  - specialize (Ha eq_refl). destruct u; cbn; try done.
    destruct (_ || _); [done|].
    pose proof (handleLogin_spec a Hauth) as Hlogin. cbn zeta in Hlogin.
    destruct (decide _).
    + destruct Hlogin as [Hone _]. by rewrite Hone.
    + destruct Hlogin as (_ & Htwo & _). intros _. by rewrite Htwo.
Qed.

(** X18. The only way in is the exact pair "admin" / "123456": a step
    that takes the shell from logged out to logged in is a submit with
    exactly these two strings in the form, and it lands on the dashboard; a
    submit with anything else leaves the shell logged out, and shows the
    error when both fields are filled in. Through any sequence of actions
    from the start, a logged-out shell has the dashboard as its view. A
    logout gives the initial shell again, with an empty login form, so a
    submit right after it does not log in. *)
Theorem login_needs_the_credentials (us : list UserAction) (u : UserAction) :
  let a := acts us initialApp in
  let a' := act u a in
  (isAuthenticated a = false -> currentView a = dashboard_view) /\
  (isAuthenticated a = false -> isAuthenticated a' = true ->
   u = SubmitLogin /\
   username (login a) = "admin" /\ password (login a) = "123456" /\
   currentView a' = dashboard_view) /\
  (isAuthenticated a = false -> u = SubmitLogin ->
   (username (login a) <> "admin" \/ password (login a) <> "123456") ->
   isAuthenticated a' = false /\
   (username (login a) <> "" -> password (login a) <> "" ->
    loginError (login a') = "Invalid username or password.")) /\
  (isAuthenticated a = true -> u = ClickLogout ->
   a' = initialApp /\ isAuthenticated (act SubmitLogin a') = false).
Proof.
  intros a a'. split; [|split; [|split]].
  - by apply acts_view.
  - intros Hout Hin. subst a'. unfold act in *. rewrite Hout in *.
    destruct u; cbn in Hin; try congruence.
    destruct (_ || _); [congruence|].
    pose proof (handleLogin_spec a Hout) as Hlogin. cbn zeta in Hlogin.
    destruct (decide _) as [[Hu Hp]|]; [|destruct Hlogin; congruence].
    by destruct Hlogin.
  - intros Hout -> Hwrong. subst a'. unfold act. rewrite Hout.
    pose proof (handleLogin_spec a Hout) as Hlogin. cbn zeta in Hlogin.
    destruct (String.eqb_spec (username (login a)) "") as [Hu|Hu];
      destruct (String.eqb_spec (password (login a)) "") as [Hp|Hp];
      cbn; try (split; [done|]; intros; done).
    destruct (decide _) as [[Hu' Hp']|]; [tauto|].
    destruct Hlogin as (? & ? & ->). done.
  - intros Hin ->. subst a'. unfold act. rewrite Hin. done.
Qed.

Lemma login_needs_the_credentials_witness :
  isAuthenticated
    (acts [TypeUsername "admin"; TypePassword "12345"; SubmitLogin] initialApp)
  = false.
Proof.
  pose proof (login_needs_the_credentials
                [TypeUsername "admin"; TypePassword "12345"] SubmitLogin)
    as (_ & _ & Hwrong & _).
  destruct (Hwrong eq_refl eq_refl) as [Hout _]; [right; discriminate|].
  exact Hout.
Defined.

End ShellFacts.
